(** * BananaPass service worker (sw.js): cache generations and request interception

    A shallow embedding of [src/sw.js].  The three event handlers of the
    worker ([install], [activate], [fetch]) are promise chains over the host's
    Cache Storage and network; they are written here in a small promise monad
    over an explicit [World] (the origin's cache storage, the cache writes
    that the worker started without awaiting them, and a chronological trace of
    every host call the worker made).  The host itself (network, deletion
    outcome) is a parameter. *)

From Stdlib Require Import ZArith String List Bool.
From stdpp Require Import gmap strings list fin_maps.
Import ListNotations.

Local Open Scope Z_scope.

(** ** Data model *)

(** [Response.type] of the Fetch standard. *)
Inductive ResponseType :=
  | basic | cors | default | error | opaque | opaqueredirect.

#[global] Instance ResponseType_eq_dec : EqDecision ResponseType.
Proof. solve_decision. Defined.

Record Response := {
  status : Z;
  type : ResponseType;
  body : string
}.

#[global] Instance Response_eq_dec : EqDecision Response.
Proof. solve_decision. Defined.

(** The part of [event.request] the worker reads. *)
Record Request := {
  method : string;
  url : string
}.

(** One named cache: request locator to stored response. *)
Abbreviation Cache := (gmap string Response).

(** [caches]: the origin's name-to-cache map.  It is ordered by creation:
    [caches.keys()] enumerates in that order and [caches.match] searches in
    that order. *)
Abbreviation CacheStorage := (list (string * gmap string Response)).

(** Every call that leaves the worker, in the order it happens. *)
Inductive Event :=
  | ConsoleLog (args : list string)
  | ConsoleError (args : list string)
  | CachesOpen (cacheName : string)
  | CachesKeys
  | CachesDelete (cacheName : string)
  | CachesMatch (locator : string)
  | CacheAddAll (cacheName : string) (urls : list string)
  | CachePut (cacheName : string) (locator : string)
  | NetFetch (locator : string)
  | SkipWaiting
  | ClientsClaim.

#[global] Instance Event_eq_dec : EqDecision Event.
Proof. solve_decision. Defined.

(** A cache write the fetch handler started but did not await:
    [caches.open(CACHE_NAME).then(cache => { cache.put(request, copy) })]. *)
Record Task := {
  task_locator : string;
  task_response : Response
}.

Record World := {
  caches : CacheStorage;
  tasks : list Task;
  trace : list Event
}.

(** What a [fetch(...)] promise settles to. *)
Inductive NetResult :=
  | NetError (reason : string)
  | NetValue (networkResponse : option Response).

(** The host: the origin the worker is served from, the network (by absolute
    URL), and which cache deletions the storage refuses. *)
Record Host := {
  origin : string;
  net : string -> NetResult;
  delete_fails : string -> bool
}.

(** The URL of a request given as a string: a path such as ["/logo.png"] is
    taken on the worker's origin, an absolute URL is itself. *)
Definition absolute (host : Host) (u : string) : string :=
  if String.prefix "/" u then origin host +:+ u else u.

(** The scheme of a URL is HTTP or HTTPS: the only requests a cache stores. *)
Definition http_scheme (u : string) : bool :=
  String.prefix "http:" u || String.prefix "https:" u.

(** ** Promises *)

Inductive Settled (A : Type) :=
  | Fulfilled (value : A)
  | Rejected (reason : string).
Arguments Fulfilled {A} value.
Arguments Rejected {A} reason.

Definition Promise (A : Type) : Type := World -> Settled A * World.

Definition resolve {A} (value : A) : Promise A :=
  fun w => (Fulfilled value, w).

Definition reject {A} (reason : string) : Promise A :=
  fun w => (Rejected reason, w).

(** [p.then(f)] *)
Definition then_ {A B} (p : Promise A) (f : A -> Promise B) : Promise B :=
  fun w =>
    match p w with
    | (Fulfilled a, w1) => f a w1
    | (Rejected e, w1) => (Rejected e, w1)
    end.

(** [p.catch(h)] *)
Definition catch_ {A} (p : Promise A) (h : string -> Promise A) : Promise A :=
  fun w =>
    match p w with
    | (Fulfilled a, w1) => (Fulfilled a, w1)
    | (Rejected e, w1) => h e w1
    end.

Notation "p >>= f" := (then_ p f) (at level 50, left associativity).
Notation "p 'catch_with' h" := (catch_ p h) (at level 50, left associativity).

(** [Promise.all(ps)]: the array is built first, so every operation in it
    has been started whatever the others do; the result is the list of values,
    or the first rejection. *)
Fixpoint Promise_all {A} (ps : list (Promise A)) : Promise (list A) :=
  fun w =>
    match ps with
    | [] => (Fulfilled [], w)
    | p :: rest =>
        let (s, w1) := p w in
        let (ss, w2) := Promise_all rest w1 in
        (match s, ss with
         | Fulfilled a, Fulfilled l => Fulfilled (a :: l)
         | Rejected e, _ => Rejected e
         | Fulfilled _, Rejected e => Rejected e
         end, w2)
    end.

(** ** World updates *)

Definition emit (es : list Event) (w : World) : World :=
  {| caches := caches w; tasks := tasks w; trace := trace w ++ es |}.

Definition with_caches (cs : CacheStorage) (w : World) : World :=
  {| caches := cs; tasks := tasks w; trace := trace w |}.

Definition with_tasks (ts : list Task) (w : World) : World :=
  {| caches := caches w; tasks := ts; trace := trace w |}.

(** ** Cache storage *)

Fixpoint store_lookup (name : string) (cs : CacheStorage) : option Cache :=
  match cs with
  | [] => None
  | (n, c) :: rest => if String.eqb n name then Some c else store_lookup name rest
  end.

Definition store_has (name : string) (cs : CacheStorage) : bool :=
  match store_lookup name cs with Some _ => true | None => false end.

Definition store_update (name : string) (f : Cache -> Cache)
    (cs : CacheStorage) : CacheStorage :=
  List.map (fun p => if String.eqb (fst p) name then (fst p, f (snd p)) else p) cs.

Definition store_remove (name : string) (cs : CacheStorage) : CacheStorage :=
  List.filter (fun p => negb (String.eqb (fst p) name)) cs.

(** The store-wide lookup of [caches.match]: the first cache, in creation
    order, that holds the locator answers. *)
Fixpoint match_all (cs : CacheStorage) (locator : string) : option Response :=
  match cs with
  | [] => None
  | (_, c) :: rest =>
      match c !! locator with
      | Some r => Some r
      | None => match_all rest locator
      end
  end.

Definition put_all (rs : list (string * Response)) (c : Cache) : Cache :=
  fold_left (fun acc p => <[fst p := snd p]> acc) rs c.

(** ** Host calls

    The Cache Storage, console, network and lifecycle calls the worker makes,
    as the Service Worker and Fetch standards define them.  A cache handle is
    the name it was opened under. *)

Definition console_log (args : list string) : Promise unit :=
  fun w => (Fulfilled tt, emit [ConsoleLog args] w).

Definition console_error (args : list string) : Promise unit :=
  fun w => (Fulfilled tt, emit [ConsoleError args] w).

(** [caches.open(name)]: creates the cache, empty, when there is none. *)
Definition caches_open (cacheName : string) : Promise string :=
  fun w =>
    let w1 := emit [CachesOpen cacheName] w in
    if store_has cacheName (caches w) then (Fulfilled cacheName, w1)
    else (Fulfilled cacheName, with_caches (caches w ++ [(cacheName, ∅)]) w1).

(** [caches.keys()] *)
Definition caches_keys : Promise (list string) :=
  fun w => (Fulfilled (List.map fst (caches w)), emit [CachesKeys] w).

(** [caches.delete(name)]: resolves to whether a cache was removed; rejects,
    leaving the storage as it was, when the host refuses the deletion. *)
Definition caches_delete (host : Host) (cacheName : string) : Promise bool :=
  fun w =>
    let w1 := emit [CachesDelete cacheName] w in
    if delete_fails host cacheName then (Rejected ("delete failed: " +:+ cacheName), w1)
    else (Fulfilled (store_has cacheName (caches w)),
          with_caches (store_remove cacheName (caches w)) w1).

(** [caches.match(request)]: no cache name is given, so all caches are
    searched. *)
Definition caches_match (request : Request) : Promise (option Response) :=
  fun w => (Fulfilled (match_all (caches w) (url request)),
            emit [CachesMatch (url request)] w).

(** [cache.put(request, response)]: rejects with a [TypeError], writing
    nothing, when the scheme of the request is not HTTP or HTTPS. *)
Definition cache_put (cache : string) (request : string) (response : Response)
  : Promise unit :=
  fun w =>
    let w1 := emit [CachePut cache request] w in
    if http_scheme request
    then (Fulfilled tt,
          with_caches (store_update cache (fun c => <[request := response]> c) (caches w)) w1)
    else (Rejected "TypeError: Request scheme is unsupported", w1).

(** [fetch(request)] *)
Definition fetch (host : Host) (request : Request) : Promise (option Response) :=
  fun w =>
    let w1 := emit [NetFetch (url request)] w in
    match net host (url request) with
    | NetError reason => (Rejected reason, w1)
    | NetValue networkResponse => (Fulfilled networkResponse, w1)
    end.

(** A response [cache.addAll] accepts: an ok status (200 to 299) other than
    206. *)
Definition addable (r : Response) : bool :=
  (200 <=? status r) && (status r <=? 299) && negb (status r =? 206).

(** The fetches of [cache.addAll]: every response, or the first failure (a
    request whose scheme is not HTTP or HTTPS, a failed fetch, a response
    that is not [addable]). *)
Fixpoint fetch_all (host : Host) (urls : list string) : string + list (string * Response) :=
  match urls with
  | [] => inr []
  | u :: rest =>
      if http_scheme u then
        match net host u with
        | NetError reason => inl reason
        | NetValue None => inl ("TypeError: no response for " +:+ u)
        | NetValue (Some r) =>
            if addable r then
              match fetch_all host rest with
              | inl reason => inl reason
              | inr rs => inr ((u, r) :: rs)
              end
            else inl ("TypeError: bad response status for " +:+ u)
        end
      else inl ("TypeError: Request scheme is unsupported for " +:+ u)
  end.

(** [cache.addAll(urls)]: all requests are fetched; if any is not an HTTP(S)
    request, any fetch fails or any response is not [addable], the call
    rejects and nothing is stored; otherwise all records are written
    together (a batch that names one request twice is refused). *)
Definition cache_addAll (host : Host) (cache : string) (urls : list string)
  : Promise unit :=
  fun w =>
    let requests := List.map (absolute host) urls in
    let w1 := emit (CacheAddAll cache urls :: List.map NetFetch requests) w in
    match fetch_all host requests with
    | inl reason => (Rejected reason, w1)
    | inr rs =>
        if bool_decide (NoDup requests)
        then (Fulfilled tt, with_caches (store_update cache (put_all rs) (caches w)) w1)
        else (Rejected "InvalidStateError", w1)
    end.

(** [self.skipWaiting()] *)
Definition skipWaiting : Promise unit :=
  fun w => (Fulfilled tt, emit [SkipWaiting] w).

(** [self.clients.claim()] *)
Definition clients_claim : Promise unit :=
  fun w => (Fulfilled tt, emit [ClientsClaim] w).

(** Starting a promise chain without awaiting it: the work is left to the
    host, which runs it later ([run_pending]).  The calls of the chain
    ([caches.open], then [cache.put]) enter the trace when the host carries
    them out, not when the listener starts them. *)
Definition spawn (t : Task) : Promise unit :=
  fun w => (Fulfilled tt, with_tasks (tasks w ++ [t]) w).

(** ** sw.js *)

Definition CACHE_NAME : string := "bananapass-cache-v1".

Definition URLS_TO_CACHE : list string :=
  [ "/";
    "/index.html";
    "/logo.png";
    "/manifest.json";
    "/assets/images/hero-background.jpg";
    "/assets/images/blog-oaxaca.jpg";
    "/assets/images/placeholder-post.jpg" ].

(** The [install] listener: the promise handed to [event.waitUntil]. *)
Definition install (host : Host) : Promise unit :=
  console_log ["[Service Worker] Evento: install"] >>= fun _ =>
  (caches_open CACHE_NAME
     >>= (fun cache =>
            console_log ["[Service Worker] Pre-cacheando URLs principales"] >>= fun _ =>
            cache_addAll host cache URLS_TO_CACHE)
     >>= (fun _ => skipWaiting)
     catch_with (fun error =>
            console_error ["[Service Worker] Falló el pre-cacheo:"; error])).

(** The callback of [cacheNames.map] in the [activate] listener; [None] is
    the [undefined] it returns for the current cache. *)
Definition reclaim_one (host : Host) (cacheName : string) : Promise (option bool) :=
  if negb (String.eqb cacheName CACHE_NAME) then
    console_log ["[Service Worker] Eliminando caché antigua:"; cacheName] >>= fun _ =>
    caches_delete host cacheName >>= fun deleted => resolve (Some deleted)
  else resolve None.

(** The [activate] listener: the promise handed to [event.waitUntil]. *)
Definition activate (host : Host) : Promise unit :=
  console_log ["[Service Worker] Evento: activate"] >>= fun _ =>
  (caches_keys
     >>= (fun cacheNames => Promise_all (List.map (reclaim_one host) cacheNames))
     >>= (fun _ => clients_claim)).

(** The test of the [fetch] listener's cacheability [if]. *)
Definition not_cacheable (networkResponse : option Response) : bool :=
  match networkResponse with
  | None => true
  | Some r =>
      negb (status r =? 200)
      || (negb (bool_decide (type r = basic)) && negb (bool_decide (type r = cors)))
  end.

(** The unawaited [caches.open(CACHE_NAME).then(cache => cache.put(...))]. *)
Definition run_task (t : Task) : Promise unit :=
  caches_open CACHE_NAME >>= fun cache =>
  cache_put cache (task_locator t) (task_response t).

(** The promise handed to [event.respondWith]; [None] is [undefined]. *)
Definition respond (host : Host) (request : Request) : Promise (option Response) :=
  caches_match request >>= fun cachedResponse =>
  match cachedResponse with
  | Some r => resolve (Some r)
  | None =>
      let fetchRequest := request in
      fetch host fetchRequest
        >>= (fun networkResponse =>
               if not_cacheable networkResponse then resolve networkResponse
               else
                 match networkResponse with
                 | Some r =>
                     let responseToCache := r in
                     spawn {| task_locator := url request;
                              task_response := responseToCache |} >>= fun _ =>
                     resolve networkResponse
                 | None => resolve networkResponse
                 end)
        catch_with (fun error =>
               console_error ["[Service Worker] Fallo en Fetch; para:"; url request; error]
                 >>= fun _ => resolve None)
  end.

(** What the [fetch] listener did with the event. *)
Inductive Interception :=
  | NotIntercepted
  | RespondWith (result : Settled (option Response)).

(** The [fetch] listener. *)
Definition on_fetch (host : Host) (request : Request) (w : World)
  : Interception * World :=
  if negb (String.eqb (method request) "GET") then (NotIntercepted, w)
  else if negb (String.prefix "http" (url request)) then (NotIntercepted, w)
  else let (result, w1) := respond host request w in (RespondWith result, w1).

(** The host completing the writes the worker left behind, oldest first. *)
Definition run_pending (w : World) : World :=
  fold_left (fun acc t => snd (run_task t acc)) (tasks w) (with_tasks [] w).

(** ** Observations *)

Definition is_fetch (e : Event) : bool :=
  match e with NetFetch _ => true | _ => false end.

(** The network-call counter. *)
Definition network_calls (w : World) : nat :=
  length (List.filter is_fetch (trace w)).

(** What happened, and which writes were left pending, between two worlds. *)
Definition events_since (w w' : World) : list Event :=
  drop (length (trace w)) (trace w').

Definition scheduled_writes (w w' : World) : list Task :=
  drop (length (tasks w)) (tasks w').

(** The record a named cache holds for a locator. *)
Definition record (name : string) (cs : CacheStorage) (locator : string)
  : option Response :=
  match store_lookup name cs with
  | Some c => c !! locator
  | None => None
  end.

(** The caches enumerated before the named one. *)
Fixpoint stores_before (name : string) (cs : CacheStorage) : CacheStorage :=
  match cs with
  | [] => []
  | (n, c) :: rest =>
      if String.eqb n name then [] else (n, c) :: stores_before name rest
  end.

(** The storage after [caches.open(name)]. *)
Definition opened (name : string) (cs : CacheStorage) : CacheStorage :=
  if store_has name cs then cs else cs ++ [(name, ∅)].

(** The storage after one completed [run_task]: the current cache is opened,
    and the record is written unless [cache.put] refuses the request. *)
Definition store_put (locator : string) (r : Response) (cs : CacheStorage)
  : CacheStorage :=
  if http_scheme locator
  then store_update CACHE_NAME (fun c => <[locator := r]> c) (opened CACHE_NAME cs)
  else opened CACHE_NAME cs.

(** The host calls of the install listener up to the outcome of
    [cache.addAll]. *)
Definition install_prologue (host : Host) : list Event :=
  [ ConsoleLog ["[Service Worker] Evento: install"];
    CachesOpen CACHE_NAME;
    ConsoleLog ["[Service Worker] Pre-cacheando URLs principales"];
    CacheAddAll CACHE_NAME URLS_TO_CACHE ]
  ++ List.map NetFetch (List.map (absolute host) URLS_TO_CACHE).

(** The URLs of the requests a browser hands to a worker's fetch event:
    those of HTTP(S) requests and, in some browsers, those of an extension
    scheme such as [chrome-extension:].  No scheme among them begins with the
    letters [http] without being HTTP or HTTPS. *)
Definition dispatchable (u : string) : bool :=
  http_scheme u || negb (String.prefix "http" u).

(** A manifest request [cache.addAll] cannot store: it is not an HTTP(S)
    request, the fetch fails, or the response is not one it accepts. *)
Definition unfetchable (host : Host) (u : string) : bool :=
  negb (http_scheme u)
  || match net host u with
     | NetValue (Some r) => negb (addable r)
     | _ => true
     end.

(** A promise handed to [event.waitUntil] reports failure by rejecting. *)
Definition rejected {A} (s : Settled A) : bool :=
  match s with
  | Rejected _ => true
  | Fulfilled _ => false
  end.

(** What one deletion request leaves of the storage: a cache stays unless it
    is the one named, stale, and the host accepts to delete it. *)
Definition spared (host : Host) (n : string) (p : string * Cache) : bool :=
  negb (String.eqb (fst p) n) || String.eqb n CACHE_NAME || delete_fails host n.

(** A stale cache whose deletion the host refuses is among the names. *)
Definition stale_refused (host : Host) (names : list string) : bool :=
  existsb (fun n => negb (String.eqb n CACHE_NAME) && delete_fails host n) names.

(** The host calls of the activate listener's [cacheNames.map]. *)
Definition reclaim_events (names : list string) : list Event :=
  flat_map
    (fun n =>
       if String.eqb n CACHE_NAME then []
       else [ConsoleLog ["[Service Worker] Eliminando caché antigua:"; n]; CachesDelete n])
    names.

(** What the page that issued the request receives.  A request the worker
    does not take goes to the network directly; [respondWith] delivers the
    response its promise resolves to, and anything else is a network error. *)
Inductive PageResult :=
  | Delivered (r : Response)
  | NetworkFailure.

Definition direct_request (host : Host) (request : Request) : PageResult :=
  match net host (url request) with
  | NetValue (Some r) => Delivered r
  | _ => NetworkFailure
  end.

Definition page_result (host : Host) (request : Request) (i : Interception)
  : PageResult :=
  match i with
  | NotIntercepted => direct_request host request
  | RespondWith (Fulfilled (Some r)) => Delivered r
  | RespondWith _ => NetworkFailure
  end.

(** ** Sample hosts, worlds and requests *)

Definition page (content : string) : Response :=
  {| status := 200; type := basic; body := content |}.

(** Every URL answers 200. *)
Definition host_online : Host :=
  {| origin := "https://bananapass.test";
     net := fun u => NetValue (Some (page u));
     delete_fails := fun _ => false |}.

(** The logo cannot be fetched. *)
Definition host_logo_unreachable : Host :=
  {| origin := "https://bananapass.test";
     net := fun u =>
       if String.eqb u "https://bananapass.test/logo.png"
       then NetError "TypeError: Failed to fetch"
       else NetValue (Some (page u));
     delete_fails := fun _ => false |}.

(** Every URL answers 203 Non-Authoritative Information. *)
Definition host_non_authoritative : Host :=
  {| origin := "https://bananapass.test";
     net := fun u => NetValue (Some {| status := 203; type := basic; body := u |});
     delete_fails := fun _ => false |}.

(** Every URL answers 404. *)
Definition host_not_found : Host :=
  {| origin := "https://bananapass.test";
     net := fun u => NetValue (Some {| status := 404; type := basic; body := "" |});
     delete_fails := fun _ => false |}.

(** No network. *)
Definition host_offline : Host :=
  {| origin := "https://bananapass.test";
     net := fun _ => NetError "TypeError: Failed to fetch";
     delete_fails := fun _ => false |}.

(** The storage refuses to delete the cache of generation v0. *)
Definition host_delete_refused : Host :=
  {| origin := "https://bananapass.test";
     net := fun u => NetValue (Some (page u));
     delete_fails := fun name => String.eqb name "bananapass-cache-v0" |}.

Definition fresh : World := {| caches := []; tasks := []; trace := [] |}.

Definition get_logo : Request :=
  {| method := "GET"; url := "https://bananapass.test/logo.png" |}.

Definition post_submit : Request :=
  {| method := "POST"; url := "https://bananapass.test/api/submit" |}.

Definition get_httpx : Request :=
  {| method := "GET"; url := "httpx://bananapass.test/logo.png" |}.

(** A request made by a browser extension, as in the listener's comment. *)
Definition get_extension : Request :=
  {| method := "GET"; url := "chrome-extension://bananapass/content.js" |}.

Definition logo_v0 : Response := page "logo of generation v0".
Definition logo_v1 : Response := page "logo of generation v1".

(** The current cache holds the logo, and so does an older cache. *)
Definition stale_first : World :=
  {| caches :=
       [ ("bananapass-cache-v0", {[ "https://bananapass.test/logo.png" := logo_v0 ]});
         (CACHE_NAME, {[ "https://bananapass.test/logo.png" := logo_v1 ]}) ];
     tasks := [];
     trace := [] |}.

(** Only the current cache, holding the logo. *)
Definition current_only : World :=
  {| caches := [ (CACHE_NAME, {[ "https://bananapass.test/logo.png" := logo_v1 ]}) ];
     tasks := [];
     trace := [] |}.

(** Two older generations and the current one. *)
Definition three_generations : World :=
  {| caches :=
       [ ("bananapass-cache-v0", ∅); ("bananapass-cache-beta", ∅); (CACHE_NAME, ∅) ];
     tasks := [];
     trace := [] |}.

(** Only an older generation's cache, holding the logo. *)
Definition older_only : World :=
  {| caches := [ ("bananapass-cache-v0", {[ "https://bananapass.test/logo.png" := logo_v0 ]}) ];
     tasks := [];
     trace := [] |}.

(** ** Proof steps *)

(** A decidable fact about concrete data, by evaluation. *)
Ltac by_evaluation := apply (bool_decide_unpack _); vm_compute; exact I.

(** World equations after unfolding host calls: the traces agree up to
    the bracketing of [++]. *)
Ltac same_trace := simpl; by rewrite <- ?app_assoc, ?app_nil_r.

(** ** Basic facts *)

Lemma prefix_app_l s1 s2 u :
  String.prefix (s1 +:+ s2) u = true -> String.prefix s1 u = true.
Proof.
  revert u. induction s1 as [|a s1 IH]; intros u.
  - destruct u; reflexivity.
  - change (String a s1 +:+ s2) with (String a (s1 +:+ s2)).
    destruct u as [|b u]; [discriminate|]. cbn [String.prefix].
    destruct (Ascii.ascii_dec a b); [apply IH | discriminate].
Qed.

(** A URL whose scheme is HTTP or HTTPS passes the listener's
    [startsWith('http')] test. *)
Lemma http_scheme_startsWith u :
  http_scheme u = true -> String.prefix "http" u = true.
Proof.
  unfold http_scheme. intros [H|H]%orb_true_iff.
  - by apply (prefix_app_l "http" ":").
  - by apply (prefix_app_l "http" "s:").
Qed.

Lemma network_calls_app w w' es :
  trace w' = trace w ++ es ->
  network_calls w' = (network_calls w + length (List.filter is_fetch es))%nat.
Proof.
  unfold network_calls. intros ->.
  by rewrite List.filter_app, length_app.
Qed.

Lemma events_since_app w w' es :
  trace w' = trace w ++ es -> events_since w w' = es.
Proof. unfold events_since. intros ->. by rewrite drop_app_length. Qed.

Lemma scheduled_writes_app w w' ts :
  tasks w' = tasks w ++ ts -> scheduled_writes w w' = ts.
Proof. unfold scheduled_writes. intros ->. by rewrite drop_app_length. Qed.

Lemma scheduled_writes_same w w' :
  tasks w' = tasks w -> scheduled_writes w w' = [].
Proof. unfold scheduled_writes. intros ->. by rewrite drop_all. Qed.

(** *** The cache storage *)

Lemma store_lookup_app_absent name cs c :
  store_lookup name cs = None ->
  store_lookup name (cs ++ [(name, c)]) = Some c.
Proof.
  induction cs as [|[n c'] cs IH]; simpl.
  - by rewrite String.eqb_refl.
  - destruct (String.eqb n name); [discriminate | exact IH].
Qed.

Lemma store_lookup_update name f cs :
  store_lookup name (store_update name f cs) = f <$> store_lookup name cs.
Proof.
  induction cs as [|[n c] cs IH]; simpl; [done|].
  destruct (String.eqb n name) eqn:E; simpl; rewrite E; [done | exact IH].
Qed.

Lemma record_store_put locator r cs :
  http_scheme locator = true ->
  record CACHE_NAME (store_put locator r cs) locator = Some r.
Proof.
  intros Hs. unfold record, store_put, opened, store_has.
  rewrite Hs, store_lookup_update.
  destruct (store_lookup CACHE_NAME cs) as [c|] eqn:E.
  - rewrite E. simpl. apply lookup_insert_eq.
  - rewrite (store_lookup_app_absent _ _ _ E). simpl. apply lookup_insert_eq.
Qed.

Lemma stores_before_app_absent name cs c :
  store_lookup name cs = None ->
  stores_before name (cs ++ [(name, c)]) = cs.
Proof.
  induction cs as [|[n c'] cs IH]; simpl.
  - by rewrite String.eqb_refl.
  - destruct (String.eqb n name); [discriminate | intros H; by rewrite IH].
Qed.

Lemma stores_before_absent name cs :
  store_lookup name cs = None -> stores_before name cs = cs.
Proof.
  induction cs as [|[n c'] cs IH]; simpl; [done|].
  destruct (String.eqb n name); [discriminate | intros H; by rewrite IH].
Qed.

Lemma stores_before_update name f cs :
  stores_before name (store_update name f cs) = stores_before name cs.
Proof.
  induction cs as [|[n c] cs IH]; simpl; [done|].
  destruct (String.eqb n name) eqn:E; simpl; rewrite E; [done | by rewrite IH].
Qed.

Lemma stores_before_opened name cs :
  stores_before name (opened name cs) = stores_before name cs.
Proof.
  unfold opened, store_has.
  destruct (store_lookup name cs) eqn:E; [done|].
  by rewrite stores_before_app_absent, stores_before_absent.
Qed.

Lemma stores_before_store_put locator r cs :
  stores_before CACHE_NAME (store_put locator r cs) = stores_before CACHE_NAME cs.
Proof.
  unfold store_put. destruct (http_scheme locator).
  - by rewrite stores_before_update, stores_before_opened.
  - apply stores_before_opened.
Qed.

Lemma match_all_stores_before name cs locator :
  match_all cs locator = None ->
  match_all (stores_before name cs) locator = None.
Proof.
  induction cs as [|[n c] cs IH]; simpl; [done|].
  destruct (c !! locator) eqn:E; [discriminate|].
  intros H. destruct (String.eqb n name); simpl; [done|].
  rewrite E. by apply IH.
Qed.

(** The store-wide lookup answers with the named cache's record when no
    cache enumerated before it holds the locator. *)
Lemma match_all_unshadowed name cs locator r :
  record name cs locator = Some r ->
  match_all (stores_before name cs) locator = None ->
  match_all cs locator = Some r.
Proof.
  unfold record.
  induction cs as [|[n c] cs IH]; simpl; [done|].
  destruct (String.eqb n name) eqn:E; simpl.
  - intros -> _. done.
  - destruct (c !! locator); [discriminate | exact IH].
Qed.

(** A locator some cache holds is found by the store-wide lookup. *)
Lemma record_match_all name cs locator r :
  record name cs locator = Some r -> is_Some (match_all cs locator).
Proof.
  unfold record.
  induction cs as [|[n c] cs IH]; simpl; [done|].
  destruct (c !! locator) eqn:E; [by eauto|].
  destruct (String.eqb n name); [congruence | exact IH].
Qed.

(** *** Pending writes *)

Lemma run_task_caches t w :
  caches (snd (run_task t w)) = store_put (task_locator t) (task_response t) (caches w).
Proof.
  unfold run_task, then_, caches_open, cache_put, store_put, opened.
  destruct (store_has CACHE_NAME (caches w)); simpl;
    by destruct (http_scheme (task_locator t)).
Qed.

Lemma run_task_trace t w :
  trace (snd (run_task t w)) =
  trace w ++ [CachesOpen CACHE_NAME; CachePut CACHE_NAME (task_locator t)].
Proof.
  unfold run_task, then_, caches_open, cache_put.
  destruct (store_has CACHE_NAME (caches w)); simpl;
    destruct (http_scheme (task_locator t)); same_trace.
Qed.

Lemma run_tasks_caches_ext ts a b :
  caches a = caches b ->
  caches (fold_left (fun acc t => snd (run_task t acc)) ts a) =
  caches (fold_left (fun acc t => snd (run_task t acc)) ts b).
Proof.
  revert a b. induction ts as [|t ts IH]; intros a b H; simpl; [done|].
  apply IH. by rewrite !run_task_caches, H.
Qed.

Lemma run_pending_same w w' :
  caches w' = caches w -> tasks w' = tasks w ->
  caches (run_pending w') = caches (run_pending w).
Proof.
  intros Hc Ht. unfold run_pending. rewrite Ht. by apply run_tasks_caches_ext.
Qed.

Lemma run_pending_snoc w w' t :
  caches w' = caches w -> tasks w' = tasks w ++ [t] ->
  caches (run_pending w') =
  store_put (task_locator t) (task_response t) (caches (run_pending w)).
Proof.
  intros Hc Ht. unfold run_pending. rewrite Ht, fold_left_app. simpl.
  rewrite run_task_caches. f_equal. by apply run_tasks_caches_ext.
Qed.

Lemma run_tasks_stores_before ts a :
  stores_before CACHE_NAME (caches (fold_left (fun acc t => snd (run_task t acc)) ts a)) =
  stores_before CACHE_NAME (caches a).
Proof.
  revert a. induction ts as [|t ts IH]; intros a; simpl; [done|].
  by rewrite IH, run_task_caches, stores_before_store_put.
Qed.

Lemma run_pending_stores_before w :
  stores_before CACHE_NAME (caches (run_pending w)) = stores_before CACHE_NAME (caches w).
Proof. unfold run_pending. by rewrite run_tasks_stores_before. Qed.

Lemma run_tasks_network_calls ts a :
  network_calls (fold_left (fun acc t => snd (run_task t acc)) ts a) = network_calls a.
Proof.
  revert a. induction ts as [|t ts IH]; intros a; simpl; [done|].
  rewrite IH. rewrite (network_calls_app a _ _ (run_task_trace t a)). simpl. lia.
Qed.

(** Completing pending writes makes no network call. *)
Lemma run_pending_network_calls w :
  network_calls (run_pending w) = network_calls w.
Proof. unfold run_pending. by rewrite run_tasks_network_calls. Qed.

(** ** The fetch listener *)

Section FetchListener.

Context (host : Host).

Lemma on_fetch_intercepted request w :
  method request = "GET" -> String.prefix "http" (url request) = true ->
  on_fetch host request w =
  (RespondWith (fst (respond host request w)), snd (respond host request w)).
Proof.
  intros Hm Hp. unfold on_fetch. rewrite Hm, Hp. simpl.
  by destruct (respond host request w).
Qed.

Lemma respond_hit request w r :
  match_all (caches w) (url request) = Some r ->
  respond host request w = (Fulfilled (Some r), emit [CachesMatch (url request)] w).
Proof. intros H. unfold respond, then_, caches_match. by rewrite H. Qed.

Lemma respond_miss_failed request w reason :
  match_all (caches w) (url request) = None ->
  net host (url request) = NetError reason ->
  exists w',
    respond host request w = (Fulfilled None, w') /\
    caches w' = caches w /\ tasks w' = tasks w /\
    trace w' = trace w ++
      [CachesMatch (url request); NetFetch (url request);
       ConsoleError ["[Service Worker] Fallo en Fetch; para:"; url request; reason]].
Proof.
  intros Hmiss Hnet. unfold respond, then_, catch_, caches_match, fetch.
  rewrite Hmiss. simpl. rewrite Hnet. eexists. split; [reflexivity|].
  same_trace.
Qed.

Lemma respond_miss_uncached request w v :
  match_all (caches w) (url request) = None ->
  net host (url request) = NetValue v ->
  not_cacheable v = true ->
  exists w',
    respond host request w = (Fulfilled v, w') /\
    caches w' = caches w /\ tasks w' = tasks w /\
    trace w' = trace w ++ [CachesMatch (url request); NetFetch (url request)].
Proof.
  intros Hmiss Hnet Hv. unfold respond, then_, catch_, caches_match, fetch.
  rewrite Hmiss. simpl. rewrite Hnet, Hv. eexists. split; [reflexivity|].
  same_trace.
Qed.

Lemma respond_miss_cached request w r :
  match_all (caches w) (url request) = None ->
  net host (url request) = NetValue (Some r) ->
  not_cacheable (Some r) = false ->
  exists w',
    respond host request w = (Fulfilled (Some r), w') /\
    caches w' = caches w /\
    tasks w' = tasks w ++ [{| task_locator := url request; task_response := r |}] /\
    trace w' = trace w ++ [CachesMatch (url request); NetFetch (url request)].
Proof.
  intros Hmiss Hnet Hv. unfold respond, then_, catch_, caches_match, fetch.
  rewrite Hmiss. simpl. rewrite Hnet.
  change (negb (status r =? 200)
          || negb (bool_decide (type r = basic)) && negb (bool_decide (type r = cors)))
    with (not_cacheable (Some r)).
  rewrite Hv. eexists. split; [reflexivity|].
  same_trace.
Qed.

(** The listener's cacheability test, in the words of the policy. *)
Lemma not_cacheable_false v :
  not_cacheable v = false <->
  exists r, v = Some r /\ status r = 200 /\ (type r = basic \/ type r = cors).
Proof.
  destruct v as [r|]; simpl.
  - rewrite orb_false_iff, andb_false_iff, !negb_false_iff, Z.eqb_eq,
      !bool_decide_eq_true.
    split.
    + intros [Hs Ht]. eauto.
    + intros (r' & [= <-] & Hs & Ht). done.
  - split; [discriminate | intros (r & [=] & _)].
Qed.

(** The gate of the listener, as it is written: a request whose
    method is not GET, or whose URL does not begin with the four characters
    [http], is not taken: no cache lookup, no network call by the worker, no
    store write, nothing logged; the world is left exactly as it was and the
    request goes to the network directly. *)
Lemma gate_passes_through request w :
  method request <> "GET" \/ String.prefix "http" (url request) = false ->
  on_fetch host request w = (NotIntercepted, w) /\
  page_result host request (fst (on_fetch host request w)) = direct_request host request.
Proof.
  intros H.
  assert (on_fetch host request w = (NotIntercepted, w)) as ->; [|done].
  unfold on_fetch. destruct H as [Hm|Hp].
  - apply String.eqb_neq in Hm. by rewrite Hm.
  - rewrite Hp. simpl. by destruct (String.eqb _ _).
Qed.

(** C6: for every request the browser hands to the fetch event whose method
    is not GET or whose URL scheme is not HTTP or HTTPS, the listener does
    not intercept: it makes no cache lookup, no network call and no store
    write, schedules nothing and logs nothing (the world is left exactly as
    it was), and the request goes to the network directly. *)
Theorem ineligible_request_not_intercepted request w :
  dispatchable (url request) = true ->
  method request <> "GET" \/ http_scheme (url request) = false ->
  on_fetch host request w = (NotIntercepted, w) /\
  events_since w (snd (on_fetch host request w)) = [] /\
  scheduled_writes w (snd (on_fetch host request w)) = [] /\
  caches (run_pending (snd (on_fetch host request w))) = caches (run_pending w) /\
  page_result host request (fst (on_fetch host request w)) = direct_request host request.
Proof.
  intros Hd Hcase.
  assert (method request <> "GET" \/ String.prefix "http" (url request) = false) as Hgate.
  { destruct Hcase as [Hm|Hs]; [by left|]. right.
    unfold dispatchable in Hd. rewrite Hs in Hd. by apply negb_true_iff in Hd. }
  destruct (gate_passes_through request w Hgate) as [E Hpage].
  rewrite E. simpl. split_and!; try done.
  - unfold events_since. apply drop_all.
  - unfold scheduled_writes. apply drop_all.
Qed.

(** C2 (as the listener looks up): for a GET request with an HTTP(S) URL
    whose locator has a record in the current generation's cache, the
    listener answers with a stored response and makes no network call: its
    only host call is the lookup, and no cache or pending write changes.  The
    response is the one [caches.match] finds, that of the first cache in
    creation order holding the locator; it is the current generation's
    record whenever no cache enumerated before the current one holds the
    locator, in particular when the current cache is the only one. *)
Theorem cache_hit_served_without_network request w r :
  method request = "GET" ->
  http_scheme (url request) = true ->
  record CACHE_NAME (caches w) (url request) = Some r ->
  exists served w',
    on_fetch host request w = (RespondWith (Fulfilled (Some served)), w') /\
    match_all (caches w) (url request) = Some served /\
    (match_all (stores_before CACHE_NAME (caches w)) (url request) = None -> served = r) /\
    events_since w w' = [CachesMatch (url request)] /\
    network_calls w' = network_calls w /\
    caches w' = caches w /\ tasks w' = tasks w.
Proof.
  intros Hm Hs Hr.
  destruct (record_match_all _ _ _ _ Hr) as [served Hhit].
  rewrite (on_fetch_intercepted _ _ Hm (http_scheme_startsWith _ Hs)).
  rewrite (respond_hit _ _ served Hhit).
  eexists served, _. split; [reflexivity|]. simpl. split_and!; try done.
  - intros Hb. rewrite (match_all_unshadowed _ _ _ _ Hr Hb) in Hhit. congruence.
  - by apply events_since_app.
  - rewrite (network_calls_app w _ [CachesMatch (url request)]); [simpl; lia | done].
Qed.

(** C3: for a GET request with an HTTP(S) URL that is in no cache, the
    response the network gives is handed to the caller as it is, whether or
    not it is kept; the listener schedules a cache write for the locator if
    and only if the response exists, its status is 200 and its type is basic
    or cors, and that write records exactly this response in the current
    cache; for any other response nothing is scheduled and no cache
    changes. *)
Theorem network_response_cached_iff_eligible request w v :
  method request = "GET" ->
  http_scheme (url request) = true ->
  match_all (caches w) (url request) = None ->
  net host (url request) = NetValue v ->
  exists w',
    on_fetch host request w = (RespondWith (Fulfilled v), w') /\
    caches w' = caches w /\
    (forall t, t ∈ scheduled_writes w w' <->
       exists r, v = Some r /\ status r = 200 /\ (type r = basic \/ type r = cors) /\
                 t = {| task_locator := url request; task_response := r |}) /\
    (forall r, v = Some r -> status r = 200 -> (type r = basic \/ type r = cors) ->
       record CACHE_NAME (caches (run_pending w')) (url request) = Some r) /\
    ((~ exists r, v = Some r /\ status r = 200 /\ (type r = basic \/ type r = cors)) ->
       tasks w' = tasks w /\ caches (run_pending w') = caches (run_pending w)).
Proof.
  intros Hm Hs Hmiss Hnet.
  rewrite (on_fetch_intercepted _ _ Hm (http_scheme_startsWith _ Hs)).
  destruct (not_cacheable v) eqn:Hv.
  - destruct (respond_miss_uncached _ _ _ Hmiss Hnet Hv) as (w' & -> & Hc & Ht & _).
    assert (~ exists r, v = Some r /\ status r = 200 /\ (type r = basic \/ type r = cors))
      as Hne.
    { intros He. apply not_cacheable_false in He. congruence. }
    exists w'. simpl. split_and!; try done.
    + intros t. rewrite (scheduled_writes_same _ _ Ht). split.
      * by intros ?%elem_of_nil.
      * intros (r & ? & ? & ? & _). exfalso. apply Hne. eauto.
    + intros r ? ? ?. exfalso. apply Hne. eauto.
    + intros _. split; [done | by apply run_pending_same].
  - destruct (proj1 (not_cacheable_false v) Hv) as (r & -> & Hst & Hty).
    destruct (respond_miss_cached _ _ _ Hmiss Hnet Hv) as (w' & -> & Hc & Ht & _).
    exists w'. simpl. split_and!; try done.
    + intros t. rewrite (scheduled_writes_app _ _ _ Ht). split.
      * intros ->%list_elem_of_singleton. eauto.
      * intros (r' & [= <-] & _ & _ & ->). by apply list_elem_of_singleton.
    + intros r' [= <-] _ _. rewrite (run_pending_snoc w w' _ Hc Ht). simpl.
      by apply record_store_put.
    + intros Hne. exfalso. apply Hne. eauto.
Qed.

(** C9: when the locator is in no cache and the network request fails, the
    listener logs the error with [console.error] and resolves its answer to
    [undefined]: no response is made up, no cache is touched and nothing is
    scheduled, so the page gets the network failure it would have got from
    the same request made without the worker. *)
Theorem network_failure_reaches_the_caller request w reason :
  method request = "GET" ->
  String.prefix "http" (url request) = true ->
  match_all (caches w) (url request) = None ->
  net host (url request) = NetError reason ->
  exists w',
    on_fetch host request w = (RespondWith (Fulfilled None), w') /\
    events_since w w' =
      [CachesMatch (url request); NetFetch (url request);
       ConsoleError ["[Service Worker] Fallo en Fetch; para:"; url request; reason]] /\
    caches w' = caches w /\ tasks w' = tasks w /\
    page_result host request (fst (on_fetch host request w)) = NetworkFailure /\
    direct_request host request = NetworkFailure.
Proof.
  intros Hm Hp Hmiss Hnet.
  rewrite (on_fetch_intercepted _ _ Hm Hp).
  destruct (respond_miss_failed _ _ _ Hmiss Hnet) as (w' & -> & Hc & Ht & Htr).
  exists w'. simpl. split_and!; try done.
  - by apply events_since_app.
  - unfold direct_request. by rewrite Hnet.
Qed.

(** C10: whatever the request, the listener itself changes no cache, and it
    leaves at most one write behind: either nothing is scheduled, and then
    the caches are the same with or without the call even after all pending
    writes complete, or exactly one write is scheduled, and that happens only
    on a cache miss whose network response has status 200 and type basic or
    cors; completing it is one [cache.put] of that record into the current
    cache.  So the hit path, the ineligible-response path and the
    network-failure path leave every record of every cache unchanged. *)
Theorem fetch_writes_at_most_once request w i w' :
  on_fetch host request w = (i, w') ->
  caches w' = caches w /\
  ((tasks w' = tasks w /\ caches (run_pending w') = caches (run_pending w))
   \/ (exists r,
         match_all (caches w) (url request) = None /\
         net host (url request) = NetValue (Some r) /\
         status r = 200 /\ (type r = basic \/ type r = cors) /\
         tasks w' = tasks w ++ [{| task_locator := url request; task_response := r |}] /\
         caches (run_pending w') = store_put (url request) r (caches (run_pending w)))) /\
  (forall r, match_all (caches w) (url request) = Some r ->
     tasks w' = tasks w /\ caches (run_pending w') = caches (run_pending w)) /\
  (forall v, net host (url request) = NetValue v ->
     (~ exists r, v = Some r /\ status r = 200 /\ (type r = basic \/ type r = cors)) ->
     tasks w' = tasks w /\ caches (run_pending w') = caches (run_pending w)) /\
  (forall reason, net host (url request) = NetError reason ->
     tasks w' = tasks w /\ caches (run_pending w') = caches (run_pending w)).
Proof.
  intros Hrun.
  assert (caches w' = caches w /\
          ((tasks w' = tasks w /\ caches (run_pending w') = caches (run_pending w))
           \/ (exists r,
                 match_all (caches w) (url request) = None /\
                 net host (url request) = NetValue (Some r) /\
                 status r = 200 /\ (type r = basic \/ type r = cors) /\
                 tasks w' = tasks w ++ [{| task_locator := url request; task_response := r |}] /\
                 caches (run_pending w') = store_put (url request) r (caches (run_pending w)))))
    as [Hc Hcases].
  { unfold on_fetch in Hrun.
    destruct (String.eqb (method request) "GET") eqn:Hm; simpl in Hrun;
      [|injection Hrun as _ <-; by auto].
    destruct (String.prefix "http" (url request)) eqn:Hp; simpl in Hrun;
      [|injection Hrun as _ <-; by auto].
    destruct (match_all (caches w) (url request)) as [r|] eqn:Hmatch.
    - rewrite (respond_hit _ _ r Hmatch) in Hrun. injection Hrun as _ <-.
      split; [done|]. left. split; [done | by apply run_pending_same].
    - destruct (net host (url request)) as [reason|v] eqn:Hnet.
      + destruct (respond_miss_failed _ _ _ Hmatch Hnet) as (w1 & E & Hc & Ht & _).
        rewrite E in Hrun. injection Hrun as _ <-.
        split; [done|]. left. split; [done | by apply run_pending_same].
      + destruct (not_cacheable v) eqn:Hv.
        * destruct (respond_miss_uncached _ _ _ Hmatch Hnet Hv) as (w1 & E & Hc & Ht & _).
          rewrite E in Hrun. injection Hrun as _ <-.
          split; [done|]. left. split; [done | by apply run_pending_same].
        * destruct (proj1 (not_cacheable_false v) Hv) as (r & -> & Hs & Hty).
          destruct (respond_miss_cached _ _ _ Hmatch Hnet Hv) as (w1 & E & Hc & Ht & _).
          rewrite E in Hrun. injection Hrun as _ <-.
          split; [done|]. right. exists r. split_and!; try done.
          by rewrite (run_pending_snoc w w1 _ Hc Ht). }
  split_and!; try done.
  - intros r Hhit. destruct Hcases as [?|(r' & Hmiss & _)]; [done | congruence].
  - intros v Hnet Hne.
    destruct Hcases as [?|(r' & _ & Hnet' & Hs & Hty & _)]; [done|].
    exfalso. apply Hne. exists r'. split_and!; [congruence | done | done].
  - intros reason Hnet.
    destruct Hcases as [?|(r' & _ & Hnet' & _)]; [done | congruence].
Qed.

(** C8 (with the first call's write completed before the second call): for a
    GET request with an HTTP(S) URL that is in no cache and whose network
    response has status 200 and type basic or cors, the first call makes
    exactly one network call and answers with the network response; once the
    write it left behind has completed, a second call for the same request
    makes no network call and answers with the same response, so the page
    receives the same payload both times. *)
Theorem second_fetch_served_from_cache request w r :
  method request = "GET" ->
  http_scheme (url request) = true ->
  match_all (caches w) (url request) = None ->
  net host (url request) = NetValue (Some r) ->
  status r = 200 ->
  type r = basic \/ type r = cors ->
  exists w1 w2,
    on_fetch host request w = (RespondWith (Fulfilled (Some r)), w1) /\
    network_calls w1 = S (network_calls w) /\
    network_calls (run_pending w1) = network_calls w1 /\
    on_fetch host request (run_pending w1) = (RespondWith (Fulfilled (Some r)), w2) /\
    network_calls w2 = network_calls (run_pending w1) /\
    page_result host request (fst (on_fetch host request w)) = Delivered r /\
    page_result host request (fst (on_fetch host request (run_pending w1))) = Delivered r.
Proof.
  intros Hm Hs Hmiss Hnet Hst Hty.
  pose proof (http_scheme_startsWith _ Hs) as Hp.
  assert (not_cacheable (Some r) = false) as Hv.
  { apply not_cacheable_false. eauto. }
  destruct (respond_miss_cached _ _ _ Hmiss Hnet Hv) as (w1 & E1 & Hc & Ht & Htr).
  assert (match_all (caches (run_pending w1)) (url request) = Some r) as Hhit.
  { apply (match_all_unshadowed CACHE_NAME).
    - rewrite (run_pending_snoc w w1 _ Hc Ht). by apply record_store_put.
    - rewrite run_pending_stores_before, Hc. by apply match_all_stores_before. }
  exists w1, (emit [CachesMatch (url request)] (run_pending w1)).
  rewrite !(on_fetch_intercepted _ _ Hm Hp), E1, (respond_hit _ _ r Hhit).
  simpl. split_and!; try done.
  - rewrite (network_calls_app w w1 _ Htr). simpl. lia.
  - apply run_pending_network_calls.
  - rewrite (network_calls_app (run_pending w1) _ [CachesMatch (url request)]);
      [simpl; lia | done].
Qed.

End FetchListener.

(** *** The fetch listener on sample runs *)

(** The scenario of the specification: [POST /api/submit]. *)
Lemma gate_passes_through_post :
  on_fetch host_online post_submit stale_first = (NotIntercepted, stale_first) /\
  page_result host_online post_submit (fst (on_fetch host_online post_submit stale_first))
  = direct_request host_online post_submit.
Proof.
  apply (gate_passes_through host_online post_submit stale_first).
  left. discriminate.
Qed.

(** The scenario of an extension's request: it is not taken. *)
Lemma ineligible_request_not_intercepted_extension :
  on_fetch host_online get_extension stale_first = (NotIntercepted, stale_first) /\
  events_since stale_first (snd (on_fetch host_online get_extension stale_first)) = [] /\
  scheduled_writes stale_first (snd (on_fetch host_online get_extension stale_first)) = [] /\
  caches (run_pending (snd (on_fetch host_online get_extension stale_first)))
  = caches (run_pending stale_first) /\
  page_result host_online get_extension
    (fst (on_fetch host_online get_extension stale_first))
  = direct_request host_online get_extension.
Proof.
  apply (ineligible_request_not_intercepted host_online get_extension stale_first).
  - reflexivity.
  - right. reflexivity.
Defined.

(** The gate tests the text of the URL, not its scheme: a URL of a scheme
    named [httpx], which is not among the [dispatchable] ones, would pass
    it. *)
Lemma prefix_test_wider_than_scheme_test :
  http_scheme (url get_httpx) = false /\
  dispatchable (url get_httpx) = false /\
  String.prefix "http" (url get_httpx) = true /\
  fst (on_fetch host_offline get_httpx fresh) <> NotIntercepted.
Proof. repeat split. discriminate. Qed.

Lemma cache_hit_served_without_network_logo :
  exists served w',
    on_fetch host_offline get_logo current_only
    = (RespondWith (Fulfilled (Some served)), w') /\
    match_all (caches current_only) (url get_logo) = Some served /\
    (match_all (stores_before CACHE_NAME (caches current_only)) (url get_logo) = None ->
     served = logo_v1) /\
    events_since current_only w' = [CachesMatch (url get_logo)] /\
    network_calls w' = network_calls current_only /\
    caches w' = caches current_only /\ tasks w' = tasks current_only.
Proof.
  apply (cache_hit_served_without_network host_offline get_logo current_only logo_v1);
    reflexivity.
Defined.

(** C2 as stated fails: [caches.match] searches every cache of the origin in
    creation order, so when an older cache also holds the locator the listener
    answers with the older record, not with the current generation's. *)
Lemma stale_store_answers_first :
  method get_logo = "GET" /\
  http_scheme (url get_logo) = true /\
  record CACHE_NAME (caches stale_first) (url get_logo) = Some logo_v1 /\
  fst (on_fetch host_online get_logo stale_first) = RespondWith (Fulfilled (Some logo_v0)) /\
  logo_v0 <> logo_v1.
Proof. repeat split. discriminate. Qed.

Lemma network_response_cached_iff_eligible_logo :
  exists w',
    on_fetch host_online get_logo fresh =
      (RespondWith (Fulfilled (Some (page (url get_logo)))), w') /\
    caches w' = caches fresh /\
    (forall t, t ∈ scheduled_writes fresh w' <->
       exists r, Some (page (url get_logo)) = Some r /\
                 status r = 200 /\ (type r = basic \/ type r = cors) /\
                 t = {| task_locator := url get_logo; task_response := r |}) /\
    (forall r, Some (page (url get_logo)) = Some r ->
       status r = 200 -> (type r = basic \/ type r = cors) ->
       record CACHE_NAME (caches (run_pending w')) (url get_logo) = Some r) /\
    ((~ exists r, Some (page (url get_logo)) = Some r /\
                  status r = 200 /\ (type r = basic \/ type r = cors)) ->
       tasks w' = tasks fresh /\ caches (run_pending w') = caches (run_pending fresh)).
Proof.
  apply (network_response_cached_iff_eligible host_online get_logo fresh);
    reflexivity.
Defined.

Lemma network_failure_reaches_the_caller_offline :
  exists w',
    on_fetch host_offline get_logo fresh = (RespondWith (Fulfilled None), w') /\
    events_since fresh w' =
      [CachesMatch (url get_logo); NetFetch (url get_logo);
       ConsoleError ["[Service Worker] Fallo en Fetch; para:"; url get_logo;
                     "TypeError: Failed to fetch"]] /\
    caches w' = caches fresh /\ tasks w' = tasks fresh /\
    page_result host_offline get_logo (fst (on_fetch host_offline get_logo fresh))
    = NetworkFailure /\
    direct_request host_offline get_logo = NetworkFailure.
Proof.
  apply (network_failure_reaches_the_caller host_offline get_logo fresh
           "TypeError: Failed to fetch"); reflexivity.
Defined.

Lemma fetch_writes_at_most_once_miss :
  on_fetch host_online get_logo fresh =
    (RespondWith (Fulfilled (Some (page (url get_logo)))),
     snd (on_fetch host_online get_logo fresh)) /\
  caches (snd (on_fetch host_online get_logo fresh)) = caches fresh.
Proof.
  split; [reflexivity|].
  exact (proj1 (fetch_writes_at_most_once host_online get_logo fresh
                  (RespondWith (Fulfilled (Some (page (url get_logo)))))
                  (snd (on_fetch host_online get_logo fresh)) eq_refl)).
Defined.

Lemma second_fetch_served_from_cache_logo :
  exists w1 w2,
    on_fetch host_online get_logo fresh =
      (RespondWith (Fulfilled (Some (page (url get_logo)))), w1) /\
    network_calls w1 = S (network_calls fresh) /\
    network_calls (run_pending w1) = network_calls w1 /\
    on_fetch host_online get_logo (run_pending w1) =
      (RespondWith (Fulfilled (Some (page (url get_logo)))), w2) /\
    network_calls w2 = network_calls (run_pending w1) /\
    page_result host_online get_logo (fst (on_fetch host_online get_logo fresh))
    = Delivered (page (url get_logo)) /\
    page_result host_online get_logo
      (fst (on_fetch host_online get_logo (run_pending w1)))
    = Delivered (page (url get_logo)).
Proof.
  apply (second_fetch_served_from_cache host_online get_logo fresh (page (url get_logo)));
    try reflexivity.
  left. reflexivity.
Defined.

(** A 404 is handed to the page and not kept. *)
Lemma not_found_returned_uncached :
  on_fetch host_not_found get_logo fresh =
    (RespondWith (Fulfilled (Some {| status := 404; type := basic; body := "" |})),
     {| caches := [];
        tasks := [];
        trace := [ CachesMatch (url get_logo); NetFetch (url get_logo) ] |}).
Proof. reflexivity. Qed.

(** C8 as stated fails: the write is started but not awaited, so a second
    call that arrives before the host has completed it finds no record and
    goes to the network again. *)
Lemma second_fetch_before_write_completes :
  method get_logo = "GET" /\
  http_scheme (url get_logo) = true /\
  match_all (caches fresh) (url get_logo) = None /\
  net host_online (url get_logo) = NetValue (Some (page (url get_logo))) /\
  not_cacheable (Some (page (url get_logo))) = false /\
  network_calls (snd (on_fetch host_online get_logo fresh)) = 1%nat /\
  network_calls
    (snd (on_fetch host_online get_logo (snd (on_fetch host_online get_logo fresh))))
  = 2%nat.
Proof. repeat split. Qed.

(** ** The install listener *)

Section InstallListener.

Context (host : Host).

Lemma fetch_all_inr urls rs :
  fetch_all host urls = inr rs ->
  List.map fst rs = urls /\
  Forall (fun p => net host (fst p) = NetValue (Some (snd p)) /\ addable (snd p) = true) rs.
Proof.
  revert rs. induction urls as [|u urls IH]; intros rs; simpl.
  - intros [= <-]. by split.
  - destruct (http_scheme u); [|discriminate].
    destruct (net host u) as [reason|[r|]] eqn:Hnet; try discriminate.
    destruct (addable r) eqn:Hok; [|discriminate].
    destruct (fetch_all host urls) as [reason|rs'] eqn:Hrest; [discriminate|].
    intros [= <-]. destruct (IH rs' eq_refl) as [Hfst Hall].
    split; simpl; [by rewrite Hfst | by constructor].
Qed.

Lemma fetch_all_inl urls u :
  u ∈ urls -> unfetchable host u = true ->
  exists reason, fetch_all host urls = inl reason.
Proof.
  unfold unfetchable.
  induction urls as [|u' urls IH]; intros Hin Hbad; [by apply elem_of_nil in Hin|].
  simpl. destruct (http_scheme u') eqn:Hs; [|eauto].
  destruct (net host u') as [reason|[r|]] eqn:Hnet; [eauto | | eauto].
  destruct (addable r) eqn:Hok; [|eauto].
  apply elem_of_cons in Hin as [->|Hin].
  - rewrite Hs, Hnet, Hok in Hbad. discriminate.
  - destruct (IH Hin Hbad) as [reason ->]. eauto.
Qed.

Lemma put_all_lookup_other rs (c : gmap string Response) u :
  u ∉ List.map fst rs -> put_all rs c !! u = c !! u.
Proof.
  unfold put_all. revert c. induction rs as [|[u' r'] rs IH]; intros c Hnot; simpl; [done|].
  simpl in Hnot. apply not_elem_of_cons in Hnot as [Hne Hnot].
  rewrite (IH _ Hnot). by apply lookup_insert_ne.
Qed.

Lemma put_all_lookup rs (c : gmap string Response) u r :
  NoDup (List.map fst rs) -> (u, r) ∈ rs -> put_all rs c !! u = Some r.
Proof.
  revert c. induction rs as [|[u' r'] rs IH]; intros c Hnd Hin; [by apply elem_of_nil in Hin|].
  simpl in Hnd. apply NoDup_cons in Hnd as [Hfresh Hnd].
  apply elem_of_cons in Hin as [[= -> ->]|Hin].
  - unfold put_all. simpl. fold (put_all rs (<[u' := r']> c)).
    rewrite (put_all_lookup_other _ _ _ Hfresh). apply lookup_insert_eq.
  - unfold put_all. simpl. fold (put_all rs (<[u' := r']> c)). by apply IH.
Qed.

Lemma string_app_inj_l (s a b : string) : s +:+ a = s +:+ b -> a = b.
Proof.
  induction s as [|x s IH]; [done|].
  change (String x s +:+ a) with (String x (s +:+ a)).
  change (String x s +:+ b) with (String x (s +:+ b)).
  intros [= H]. by apply IH.
Qed.

(** Every manifest entry is a path on the worker's origin. *)
Lemma manifest_requests :
  List.map (absolute host) URLS_TO_CACHE = List.map (String.append (origin host)) URLS_TO_CACHE.
Proof. reflexivity. Qed.

(** The manifest names no request twice. *)
Lemma manifest_requests_NoDup :
  NoDup (List.map (absolute host) URLS_TO_CACHE).
Proof.
  rewrite manifest_requests.
  assert (Inj (=) (=) (String.append (origin host))) as Hinj.
  { intros a b. apply string_app_inj_l. }
  apply (NoDup_fmap_2 (String.append (origin host)) URLS_TO_CACHE).
  by_evaluation.
Qed.

Lemma store_has_opened name cs : store_has name (opened name cs) = true.
Proof.
  unfold opened. destruct (store_has name cs) eqn:E; [done|].
  unfold store_has in *. destruct (store_lookup name cs) eqn:E'; [discriminate|].
  by rewrite (store_lookup_app_absent _ _ _ E').
Qed.

(** The install listener, outcome by outcome: its promise is fulfilled
    either way. *)
Lemma install_run w :
  exists w',
    install host w = (Fulfilled tt, w') /\
    tasks w' = tasks w /\
    match fetch_all host (List.map (absolute host) URLS_TO_CACHE) with
    | inl reason =>
        caches w' = opened CACHE_NAME (caches w) /\
        events_since w w' =
          install_prologue host
          ++ [ConsoleError ["[Service Worker] Falló el pre-cacheo:"; reason]]
    | inr rs =>
        caches w' = store_update CACHE_NAME (put_all rs) (opened CACHE_NAME (caches w)) /\
        events_since w w' = install_prologue host ++ [SkipWaiting]
    end.
Proof.
  pose proof manifest_requests_NoDup as Hnd.
  unfold install, install_prologue, then_, catch_, console_log, console_error,
    caches_open, cache_addAll, skipWaiting, opened.
  revert Hnd. generalize URLS_TO_CACHE as urls. intros urls Hnd.
  cbn [caches emit].
  rewrite (bool_decide_eq_true_2 _ Hnd).
  destruct (store_has CACHE_NAME (caches w));
    destruct (fetch_all host (List.map (absolute host) urls)) as [reason|rs];
    (eexists; split; [reflexivity|]); (split; [reflexivity|]);
    (split; [reflexivity|]); apply events_since_app; same_trace.
Qed.

Lemma store_lookup_app_other name name' cs c :
  name' <> name ->
  store_lookup name (cs ++ [(name', c)]) = store_lookup name cs.
Proof.
  intros Hne. induction cs as [|[n c'] cs IH]; simpl.
  - apply String.eqb_neq in Hne. by rewrite Hne.
  - by destruct (String.eqb n name).
Qed.

(** Opening a cache changes no record. *)
Lemma record_opened name' name cs locator :
  record name (opened name' cs) locator = record name cs locator.
Proof.
  unfold record, opened, store_has.
  destruct (store_lookup name' cs) eqn:E; [done|].
  destruct (decide (name' = name)) as [->|Hne].
  - by rewrite (store_lookup_app_absent _ _ _ E), E.
  - by rewrite (store_lookup_app_other _ _ _ _ Hne).
Qed.

Lemma install_prologue_no_skipWaiting : SkipWaiting ∉ install_prologue host.
Proof.
  intros H. apply list_elem_of_In in H. simpl in H.
  repeat (destruct H as [H|H]; [discriminate|]). exact H.
Qed.

(** C1 (as the listener handles the failure): when some manifest entry
    cannot be fetched or is not a response [cache.addAll] stores, the install
    listener catches the rejection and logs it with [console.error]; no
    record is written to any cache (the only change is that the current
    cache exists, empty if it was not there), nothing is scheduled and
    [skipWaiting] is not called, so activation is not forced.  The promise
    handed to [event.waitUntil] is nevertheless fulfilled: the install is not
    reported to the host as failed. *)
Theorem failed_precache_logged_not_reported w entry :
  entry ∈ URLS_TO_CACHE ->
  unfetchable host (absolute host entry) = true ->
  exists reason w',
    install host w = (Fulfilled tt, w') /\
    rejected (fst (install host w)) = false /\
    caches w' = opened CACHE_NAME (caches w) /\
    (forall name locator, record name (caches w') locator = record name (caches w) locator) /\
    tasks w' = tasks w /\
    (SkipWaiting ∉ events_since w w') /\
    events_since w w' =
      install_prologue host ++ [ConsoleError ["[Service Worker] Falló el pre-cacheo:"; reason]].
Proof.
  intros Hin Hbad.
  destruct (fetch_all_inl (List.map (absolute host) URLS_TO_CACHE) (absolute host entry))
    as [reason Hfetch]; [|done|].
  { apply list_elem_of_In, in_map, list_elem_of_In, Hin. }
  destruct (install_run w) as (w' & E & Ht & Hcase).
  rewrite Hfetch in Hcase. destruct Hcase as [Hc Hev].
  exists reason, w'. rewrite E. split_and!; try done.
  - intros name locator. rewrite Hc. apply record_opened.
  - rewrite Hev. intros [H|H]%elem_of_app.
    + by apply install_prologue_no_skipWaiting.
    + apply list_elem_of_singleton in H. discriminate.
Qed.

(** C5 (with the statuses [cache.addAll] accepts): after an install whose
    pre-caching succeeded (the listener went on to call [skipWaiting]), the
    current cache holds, for every manifest entry, the response the network
    gave for it, and that response has an ok status: 200 to 299, and not
    206. *)
Theorem precached_entries_are_stored w s w' entry :
  install host w = (s, w') ->
  SkipWaiting ∈ events_since w w' ->
  entry ∈ URLS_TO_CACHE ->
  exists r,
    record CACHE_NAME (caches w') (absolute host entry) = Some r /\
    net host (absolute host entry) = NetValue (Some r) /\
    200 <= status r <= 299 /\ status r <> 206.
Proof.
  intros Hrun Hok Hin.
  destruct (install_run w) as (w1 & E & _ & Hcase).
  rewrite E in Hrun. injection Hrun as _ <-.
  destruct (fetch_all host (List.map (absolute host) URLS_TO_CACHE)) as [reason|rs] eqn:Hfetch.
  - destruct Hcase as [_ Hev]. rewrite Hev in Hok.
    apply elem_of_app in Hok as [H|H].
    + by apply install_prologue_no_skipWaiting in H.
    + apply list_elem_of_singleton in H. discriminate.
  - destruct Hcase as [Hc _].
    destruct (fetch_all_inr _ _ Hfetch) as [Hfst Hall].
    assert (exists r, (absolute host entry, r) ∈ rs) as [r Hr].
    { assert (absolute host entry ∈ List.map fst rs) as H.
      { rewrite Hfst. apply list_elem_of_In, in_map, list_elem_of_In, Hin. }
      apply list_elem_of_In, in_map_iff in H as ([u r] & Hu & H). simpl in Hu. subst u.
      exists r. by apply list_elem_of_In. }
    exists r.
    rewrite Forall_forall in Hall. destruct (Hall _ Hr) as [Hnet Hadd]. simpl in *.
    split_and!.
    + rewrite Hc. unfold record. rewrite store_lookup_update.
      pose proof (store_has_opened CACHE_NAME (caches w)) as Hopen.
      unfold store_has in Hopen.
      destruct (store_lookup CACHE_NAME (opened CACHE_NAME (caches w))) as [c|];
        [|discriminate].
      simpl. apply put_all_lookup; [|done].
      rewrite Hfst. apply manifest_requests_NoDup.
    + done.
    + unfold addable in Hadd. lia.
    + unfold addable in Hadd. lia.
    + unfold addable in Hadd. lia.
Qed.

End InstallListener.

(** *** The install listener on sample runs *)

Lemma failed_precache_logged_not_reported_logo :
  exists reason w',
    install host_logo_unreachable fresh = (Fulfilled tt, w') /\
    rejected (fst (install host_logo_unreachable fresh)) = false /\
    caches w' = opened CACHE_NAME (caches fresh) /\
    (forall name locator,
       record name (caches w') locator = record name (caches fresh) locator) /\
    tasks w' = tasks fresh /\
    (SkipWaiting ∉ events_since fresh w') /\
    events_since fresh w' =
      install_prologue host_logo_unreachable
      ++ [ConsoleError ["[Service Worker] Falló el pre-cacheo:"; reason]].
Proof.
  apply (failed_precache_logged_not_reported host_logo_unreachable fresh "/logo.png").
  - by_evaluation.
  - reflexivity.
Defined.

(** C1 as stated fails: with the logo unreachable the listener's promise is
    fulfilled, so the host is told the install succeeded. *)
Lemma install_fulfilled_with_logo_unreachable :
  "/logo.png" ∈ URLS_TO_CACHE /\
  unfetchable host_logo_unreachable (absolute host_logo_unreachable "/logo.png") = true /\
  fst (install host_logo_unreachable fresh) = Fulfilled tt /\
  rejected (fst (install host_logo_unreachable fresh)) = false.
Proof.
  split_and!; try reflexivity.
  by_evaluation.
Qed.

Lemma precached_entries_are_stored_logo :
  exists r,
    record CACHE_NAME (caches (snd (install host_online fresh)))
      (absolute host_online "/logo.png") = Some r /\
    net host_online (absolute host_online "/logo.png") = NetValue (Some r) /\
    200 <= status r <= 299 /\ status r <> 206.
Proof.
  apply (precached_entries_are_stored host_online fresh
           (fst (install host_online fresh)) (snd (install host_online fresh)) "/logo.png").
  - reflexivity.
  - by_evaluation.
  - by_evaluation.
Defined.

(** C5 as stated fails: [cache.addAll] accepts any ok status, so when the
    server answers the manifest requests with 203 the install succeeds and
    the record found for the logo has status 203, not 200. *)
Lemma precached_logo_has_status_203 :
  SkipWaiting ∈ events_since fresh (snd (install host_non_authoritative fresh)) /\
  "/logo.png" ∈ URLS_TO_CACHE /\
  record CACHE_NAME (caches (snd (install host_non_authoritative fresh)))
    (absolute host_non_authoritative "/logo.png")
  = Some {| status := 203; type := basic; body := "https://bananapass.test/logo.png" |} /\
  203 <> 200.
Proof.
  split_and!.
  - by_evaluation.
  - by_evaluation.
  - vm_compute. reflexivity.
  - discriminate.
Qed.

(** ** The activate listener *)

Section ActivateListener.

Context (host : Host).

Lemma filter_filter {A} (f g : A -> bool) l :
  List.filter g (List.filter f l) = List.filter (fun x => f x && g x) l.
Proof.
  induction l as [|x l IH]; simpl; [done|].
  destruct (f x); simpl; [destruct (g x)|]; by rewrite IH.
Qed.

Lemma filter_all {A} (f : A -> bool) l :
  (forall x, f x = true) -> List.filter f l = l.
Proof.
  intros Hf. induction l as [|x l IH]; simpl; [done|]. by rewrite Hf, IH.
Qed.

Lemma reclaim_one_run n w :
  exists s w',
    reclaim_one host n w = (s, w') /\
    caches w' = List.filter (spared host n) (caches w) /\
    tasks w' = tasks w /\
    trace w' = trace w ++ reclaim_events [n] /\
    rejected s = negb (String.eqb n CACHE_NAME) && delete_fails host n.
Proof.
  unfold reclaim_one, reclaim_events, spared, then_, console_log, caches_delete, resolve.
  simpl. destruct (String.eqb n CACHE_NAME) eqn:En; simpl.
  - eexists _, _. split; [reflexivity|]. split_and!; try done.
    + rewrite filter_all; [done|]. intros p. by rewrite orb_true_r.
    + by rewrite app_nil_r.
  - destruct (delete_fails host n) eqn:Ed; simpl.
    + eexists _, _. split; [reflexivity|]. simpl. split_and!; try done.
      * rewrite filter_all; [done|]. intros p. by rewrite orb_true_r.
      * same_trace.
    + eexists _, _. split; [reflexivity|]. simpl. split_and!; try done.
      * unfold store_remove. apply List.filter_ext. intros p.
        by rewrite !orb_false_r.
      * same_trace.
Qed.

Lemma reclaim_all_run names w :
  exists s w',
    Promise_all (List.map (reclaim_one host) names) w = (s, w') /\
    caches w' = List.filter (fun p => forallb (fun n => spared host n p) names) (caches w) /\
    tasks w' = tasks w /\
    trace w' = trace w ++ reclaim_events names /\
    rejected s = stale_refused host names.
Proof.
  revert w. induction names as [|n names IH]; intros w.
  - exists (Fulfilled []), w. simpl. split_and!; try done.
    + by rewrite filter_all.
    + by rewrite app_nil_r.
  - destruct (reclaim_one_run n w) as (s1 & w1 & E1 & Hc1 & Ht1 & Htr1 & Hr1).
    destruct (IH w1) as (ss & w2 & E2 & Hc2 & Ht2 & Htr2 & Hr2).
    simpl. rewrite E1, E2. eexists _, w2. split; [reflexivity|]. split_and!.
    + rewrite Hc2, Hc1. apply filter_filter.
    + congruence.
    + rewrite Htr2, Htr1. unfold reclaim_events. simpl. rewrite app_nil_r.
      by rewrite <- app_assoc.
    + unfold stale_refused in *. simpl. rewrite <- Hr1, <- Hr2.
      by destruct s1, ss.
Qed.

Lemma spared_by_all (cs : list (string * gmap string Response)) p :
  p ∈ cs ->
  forallb (fun n => spared host n p) (List.map fst cs) =
  String.eqb (fst p) CACHE_NAME || delete_fails host (fst p).
Proof.
  intros Hin. unfold spared.
  destruct (String.eqb (fst p) CACHE_NAME || delete_fails host (fst p)) eqn:Hkeep.
  - apply forallb_forall. intros n _.
    destruct (String.eqb (fst p) n) eqn:E; [|done].
    apply String.eqb_eq in E. subst n. simpl.
    by apply orb_true_iff in Hkeep as [->| ->]; rewrite ?orb_true_r.
  - apply not_true_is_false. intros Hall. rewrite forallb_forall in Hall.
    specialize (Hall (fst p)). rewrite String.eqb_refl in Hall. simpl in Hall.
    rewrite Hall in Hkeep; [discriminate|].
    apply in_map, list_elem_of_In, Hin.
Qed.

(** The activate listener: the storage it leaves, the calls it makes and
    how its promise settles. *)
Lemma activate_run w :
  exists s w',
    activate host w = (s, w') /\
    caches w' =
      List.filter (fun p => String.eqb (fst p) CACHE_NAME || delete_fails host (fst p))
        (caches w) /\
    tasks w' = tasks w /\
    events_since w w' =
      [ConsoleLog ["[Service Worker] Evento: activate"]; CachesKeys]
      ++ reclaim_events (List.map fst (caches w))
      ++ (if stale_refused host (List.map fst (caches w)) then [] else [ClientsClaim]) /\
    rejected s = stale_refused host (List.map fst (caches w)).
Proof.
  destruct (reclaim_all_run (List.map fst (caches w))
              (emit [CachesKeys] (emit [ConsoleLog ["[Service Worker] Evento: activate"]] w)))
    as (s & w1 & E & Hc & Ht & Htr & Hr).
  unfold activate, then_, console_log, caches_keys, clients_claim.
  cbn [caches emit]. rewrite E.
  assert (caches w1 =
          List.filter (fun p => String.eqb (fst p) CACHE_NAME || delete_fails host (fst p))
            (caches w)) as Hc'.
  { rewrite Hc. simpl. apply List.filter_ext_in. intros p Hp.
    apply spared_by_all. by apply list_elem_of_In. }
  rewrite <- Hr. destruct s as [l|reason]; simpl.
  - eexists _, _. split; [reflexivity|]. simpl. split_and!; try done.
    apply events_since_app. simpl. rewrite Htr. same_trace.
  - eexists _, _. split; [reflexivity|]. split_and!; try done.
    apply events_since_app. rewrite Htr. same_trace.
Qed.

Lemma keys_filter (keep : string -> bool) (cs : list (string * gmap string Response)) g :
  g ∈ List.map fst (List.filter (fun p => keep (fst p)) cs) <->
  g ∈ List.map fst cs /\ keep g = true.
Proof.
  rewrite !list_elem_of_In, !in_map_iff. split.
  - intros (p & <- & [Hin Hk]%filter_In). eauto.
  - intros [(p & <- & Hin) Hk]. exists p. split; [done|]. by apply filter_In.
Qed.

Lemma stale_refused_true names :
  stale_refused host names = true <->
  exists g, g ∈ names /\ g <> CACHE_NAME /\ delete_fails host g = true.
Proof.
  unfold stale_refused. rewrite existsb_exists. split.
  - intros (g & Hin & [Hne Hd]%andb_true_iff).
    exists g. rewrite list_elem_of_In. split_and!; try done.
    apply String.eqb_neq. by apply negb_true_iff.
  - intros (g & Hin & Hne & Hd). exists g. rewrite <- list_elem_of_In.
    split; [done|]. apply String.eqb_neq in Hne. by rewrite Hne, Hd.
Qed.

Lemma reclaim_events_elem e names :
  e ∈ reclaim_events names <->
  exists n, n ∈ names /\ n <> CACHE_NAME /\
    (e = ConsoleLog ["[Service Worker] Eliminando caché antigua:"; n] \/ e = CachesDelete n).
Proof.
  unfold reclaim_events. rewrite list_elem_of_In, in_flat_map. split.
  - intros (n & Hin & He). exists n. rewrite list_elem_of_In.
    destruct (String.eqb n CACHE_NAME) eqn:E; [by destruct He|].
    apply String.eqb_neq in E. destruct He as [<-|[<-|[]]]; auto.
  - intros (n & Hin & Hne & He). exists n. rewrite <- list_elem_of_In.
    split; [done|]. apply String.eqb_neq in Hne. rewrite Hne.
    destruct He as [->| ->]; simpl; auto.
Qed.

(** The reclaim succeeds whenever the host refuses no deletion. *)
Lemma activate_fulfilled w :
  (forall g, delete_fails host g = false) -> fst (activate host w) = Fulfilled tt.
Proof.
  intros Hok. destruct (activate_run w) as (s & w' & E & _ & _ & _ & Hr).
  rewrite E. simpl. destruct s as [[]|reason]; [done|].
  simpl in Hr. symmetry in Hr. apply stale_refused_true in Hr as (g & _ & _ & Hd).
  by rewrite Hok in Hd.
Qed.

(** C4: once the activate listener's reclaim has completed, a cache name
    that was in the enumeration is still in it if and only if it is the
    current generation's: every other cache has been deleted. *)
Theorem reclaim_leaves_only_current w w' g :
  activate host w = (Fulfilled tt, w') ->
  g ∈ List.map fst (caches w) ->
  (g ∈ List.map fst (caches w') <-> g = CACHE_NAME).
Proof.
  intros Hrun Hin.
  destruct (activate_run w) as (s & w1 & E & Hc & _ & _ & Hr).
  rewrite E in Hrun. injection Hrun as -> <-. simpl in Hr.
  rewrite Hc.
  rewrite (keys_filter (fun n => String.eqb n CACHE_NAME || delete_fails host n)).
  split.
  - intros [_ [Hcur|Hd]%orb_true_iff]; [by apply String.eqb_eq|].
    destruct (decide (g = CACHE_NAME)) as [|Hne]; [done|].
    assert (stale_refused host (List.map fst (caches w)) = true) as Hs.
    { apply stale_refused_true. eauto. }
    congruence.
  - intros ->. split; [done|]. by rewrite String.eqb_refl.
Qed.

(** C7 (as the listener reclaims): every stale cache's deletion is requested
    whatever happens to the others, and every one the host accepts takes
    effect, so a refused deletion does not stop the remaining ones; the
    current cache and the caches whose deletion was refused stay.  The
    listener logs no error.  When some deletion is refused its rejection is
    not caught: the promise handed to [event.waitUntil] rejects and
    [clients.claim] is not called; when none is refused the promise is
    fulfilled after [clients.claim]. *)
Theorem reclaim_requests_every_stale_deletion w s w' :
  activate host w = (s, w') ->
  (forall g, g ∈ List.map fst (caches w) -> g <> CACHE_NAME ->
     CachesDelete g ∈ events_since w w') /\
  (forall g, g <> CACHE_NAME -> delete_fails host g = false ->
     g ∉ List.map fst (caches w')) /\
  (forall g, g ∈ List.map fst (caches w) -> g = CACHE_NAME \/ delete_fails host g = true ->
     g ∈ List.map fst (caches w')) /\
  (forall args, ConsoleError args ∉ events_since w w') /\
  ((exists g, g ∈ List.map fst (caches w) /\ g <> CACHE_NAME /\ delete_fails host g = true) ->
     rejected s = true /\ ClientsClaim ∉ events_since w w') /\
  ((forall g, g ∈ List.map fst (caches w) -> g <> CACHE_NAME -> delete_fails host g = false) ->
     s = Fulfilled tt /\ ClientsClaim ∈ events_since w w').
Proof.
  intros Hrun.
  destruct (activate_run w) as (s1 & w1 & E & Hc & _ & Hev & Hr).
  rewrite E in Hrun. injection Hrun as <- <-.
  split_and!.
  - intros g Hin Hne. rewrite Hev.
    apply elem_of_app. right. apply elem_of_app. left.
    apply reclaim_events_elem. eauto.
  - intros g Hne Hd. rewrite Hc.
    rewrite (keys_filter (fun n => String.eqb n CACHE_NAME || delete_fails host n)).
    intros [_ H]. apply String.eqb_neq in Hne. by rewrite Hne, Hd in H.
  - intros g Hin Hkeep. rewrite Hc.
    rewrite (keys_filter (fun n => String.eqb n CACHE_NAME || delete_fails host n)).
    split; [done|]. destruct Hkeep as [->| ->]; [by rewrite String.eqb_refl|].
    by rewrite orb_true_r.
  - intros args. rewrite Hev.
    intros [H|[H|H]%elem_of_app]%elem_of_app.
    + apply list_elem_of_In in H. simpl in H. by destruct H as [|[|[]]].
    + apply reclaim_events_elem in H as (n & _ & _ & [|]); discriminate.
    + destruct (stale_refused _ _); [by apply elem_of_nil in H|].
      apply list_elem_of_singleton in H. discriminate.
  - intros Hbad. apply stale_refused_true in Hbad. split; [congruence|].
    rewrite Hev, Hbad.
    intros [H|[H|H]%elem_of_app]%elem_of_app.
    + apply list_elem_of_In in H. simpl in H. by destruct H as [|[|[]]].
    + apply reclaim_events_elem in H as (n & _ & _ & [|]); discriminate.
    + by apply elem_of_nil in H.
  - intros Hgood.
    assert (stale_refused host (List.map fst (caches w)) = false) as Hnone.
    { apply not_true_is_false. intros (g & Hin & Hne & Hd)%stale_refused_true.
      by rewrite (Hgood g Hin Hne) in Hd. }
    rewrite Hnone in Hr, Hev. split.
    + by destruct s1 as [[]|].
    + rewrite Hev. apply elem_of_app. right. apply elem_of_app. right.
      by apply list_elem_of_singleton.
Qed.

End ActivateListener.

(** *** The activate listener on sample runs *)

Lemma reclaim_leaves_only_current_beta :
  "bananapass-cache-beta" ∈ List.map fst (caches (snd (activate host_online three_generations)))
  <-> "bananapass-cache-beta" = CACHE_NAME.
Proof.
  apply (reclaim_leaves_only_current host_online three_generations
           (snd (activate host_online three_generations)) "bananapass-cache-beta").
  - reflexivity.
  - by_evaluation.
Defined.

Lemma reclaim_requests_every_stale_deletion_refused :
  CachesDelete "bananapass-cache-beta"
    ∈ events_since three_generations (snd (activate host_delete_refused three_generations)).
Proof.
  apply (proj1 (reclaim_requests_every_stale_deletion host_delete_refused three_generations
                  (fst (activate host_delete_refused three_generations))
                  (snd (activate host_delete_refused three_generations)) eq_refl)).
  - by_evaluation.
  - discriminate.
Defined.

(** C7 as stated fails: with the deletion of one stale cache refused, the
    other stale cache is still deleted, but the refusal is not logged and
    not skipped: the listener's promise rejects with it and [clients.claim]
    is never called. *)
Lemma refused_deletion_rejects_reclaim :
  activate host_delete_refused three_generations =
    (Rejected "delete failed: bananapass-cache-v0",
     {| caches := [ ("bananapass-cache-v0", ∅); (CACHE_NAME, ∅) ];
        tasks := [];
        trace :=
          [ ConsoleLog ["[Service Worker] Evento: activate"];
            CachesKeys;
            ConsoleLog ["[Service Worker] Eliminando caché antigua:"; "bananapass-cache-v0"];
            CachesDelete "bananapass-cache-v0";
            ConsoleLog ["[Service Worker] Eliminando caché antigua:"; "bananapass-cache-beta"];
            CachesDelete "bananapass-cache-beta" ] |}).
Proof. reflexivity. Qed.

(** A deploy over an older generation: after install and activate only the
    current cache is enumerated, it holds the seven manifest records, and a
    lookup in the older cache finds nothing. *)
Lemma deploy_over_older_generation :
  let w := snd (activate host_online
                  (snd (install host_online
                          {| caches := [ ("bananapass-cache-v0",
                                          {[ "https://bananapass.test/logo.png" := logo_v0 ]}) ];
                             tasks := [];
                             trace := [] |}))) in
  List.map fst (caches w) = [CACHE_NAME] /\
  (size <$> store_lookup CACHE_NAME (caches w)) = Some 7%nat /\
  record "bananapass-cache-v0" (caches w) "https://bananapass.test/logo.png" = None.
Proof. vm_compute. repeat split. Qed.

(** ** Further properties of the listeners *)

(** *** More on the cache storage *)

Lemma store_lookup_update_ne name name' f cs :
  name <> name' ->
  store_lookup name (store_update name' f cs) = store_lookup name cs.
Proof.
  intros Hne. induction cs as [|[n c] cs IH]; simpl; [done|].
  destruct (String.eqb n name') eqn:E'; simpl; [|by rewrite IH].
  apply String.eqb_eq in E'. subst n.
  destruct (String.eqb name' name) eqn:E; [|done].
  apply String.eqb_eq in E. congruence.
Qed.

Lemma keys_store_update name f cs :
  List.map fst (store_update name f cs) = List.map fst cs.
Proof.
  unfold store_update. rewrite List.map_map. apply List.map_ext.
  intros [n c]. simpl. by destruct (String.eqb n name).
Qed.

Lemma keys_opened name cs :
  List.map fst (opened name cs) =
  if store_has name cs then List.map fst cs else List.map fst cs ++ [name].
Proof.
  unfold opened. destruct (store_has name cs); [done|]. by rewrite List.map_app.
Qed.

Lemma store_has_keys name cs :
  store_has name cs = true <-> name ∈ List.map fst cs.
Proof.
  unfold store_has. induction cs as [|[n c] cs IH]; simpl.
  - split; [discriminate | by intros ?%elem_of_nil].
  - rewrite elem_of_cons. destruct (String.eqb n name) eqn:E.
    + apply String.eqb_eq in E. split; auto.
    + apply String.eqb_neq in E. rewrite IH. split; [auto | intros [?|?]; congruence].
Qed.

Lemma store_has_update name name' f cs :
  store_has name (store_update name' f cs) = store_has name cs.
Proof.
  apply eq_true_iff_eq. by rewrite !store_has_keys, keys_store_update.
Qed.

Lemma opened_idem name cs : opened name (opened name cs) = opened name cs.
Proof. unfold opened at 1. by rewrite store_has_opened. Qed.

Lemma store_lookup_filter (keep : string -> bool) cs name :
  store_lookup name (List.filter (fun p => keep (fst p)) cs) =
  if keep name then store_lookup name cs else None.
Proof.
  induction cs as [|[n c] cs IH]; simpl; [by destruct (keep name)|].
  destruct (String.eqb n name) eqn:E.
  - apply String.eqb_eq in E. subst n.
    destruct (keep name) eqn:K; simpl; [by rewrite String.eqb_refl|].
    by rewrite IH, ?K.
  - destruct (keep n); simpl; [by rewrite E|done].
Qed.

Lemma store_update_twice name f cs :
  (forall c, f (f c) = f c) ->
  store_update name f (store_update name f cs) = store_update name f cs.
Proof.
  intros Hf. unfold store_update. rewrite List.map_map. apply List.map_ext.
  intros [n c]. simpl. destruct (String.eqb n name) eqn:E; simpl; rewrite E; [|done].
  by rewrite Hf.
Qed.

(** Writing a batch of distinct records a second time changes nothing. *)
Lemma put_all_twice rs (c : gmap string Response) :
  NoDup (List.map fst rs) -> put_all rs (put_all rs c) = put_all rs c.
Proof.
  intros Hnd. apply map_eq. intros u.
  destruct (decide (u ∈ List.map fst rs)) as [Hin|Hnot].
  - apply list_elem_of_In, in_map_iff in Hin as ([u' r] & Hu & Hin). simpl in Hu. subst u'.
    apply list_elem_of_In in Hin. by rewrite !(put_all_lookup rs _ u r Hnd Hin).
  - by rewrite !(put_all_lookup_other rs _ u Hnot).
Qed.

(** *** More on [cache.addAll] *)

Lemma fetch_all_total host urls :
  (forall u, u ∈ urls -> unfetchable host u = false) ->
  exists rs, fetch_all host urls = inr rs.
Proof.
  induction urls as [|u urls IH]; intros Hok; simpl; [eauto|].
  assert (unfetchable host u = false) as Hu by (apply Hok, elem_of_cons; auto).
  unfold unfetchable in Hu. apply orb_false_iff in Hu as [Hs Hn].
  apply negb_false_iff in Hs. rewrite Hs.
  destruct (net host u) as [reason|[r|]]; try discriminate.
  apply negb_false_iff in Hn. rewrite Hn.
  destruct IH as [rs ->]; [|eauto].
  intros u' Hin. apply Hok, elem_of_cons. auto.
Qed.

Lemma fetch_all_inr_scheme host urls rs u :
  fetch_all host urls = inr rs -> u ∈ urls -> http_scheme u = true.
Proof.
  revert rs. induction urls as [|u' urls IH]; intros rs; simpl.
  - by intros _ ?%elem_of_nil.
  - destruct (http_scheme u') eqn:Hs; [|discriminate].
    destruct (net host u') as [reason|[r|]]; try discriminate.
    destruct (addable r); [|discriminate].
    destruct (fetch_all host urls) as [reason|rs'] eqn:Hrest; [discriminate|].
    intros _ [->|Hin]%elem_of_cons; [done | by apply (IH rs')].
Qed.

(** *** The install listener *)

Lemma requests_of_manifest host entry :
  entry ∈ URLS_TO_CACHE -> absolute host entry ∈ List.map (absolute host) URLS_TO_CACHE.
Proof. intros Hin. apply list_elem_of_In, in_map, list_elem_of_In, Hin. Qed.

Lemma stored_by_put_all host cs rs u r :
  fetch_all host (List.map (absolute host) URLS_TO_CACHE) = inr rs ->
  (u, r) ∈ rs ->
  record CACHE_NAME (store_update CACHE_NAME (put_all rs) (opened CACHE_NAME cs)) u = Some r.
Proof.
  intros Hfetch Hin. destruct (fetch_all_inr _ _ _ Hfetch) as [Hfst _].
  unfold record. rewrite store_lookup_update.
  pose proof (store_has_opened CACHE_NAME cs) as Hopen. unfold store_has in Hopen.
  destruct (store_lookup CACHE_NAME (opened CACHE_NAME cs)) as [c|]; [|discriminate].
  simpl. apply put_all_lookup; [|done].
  rewrite Hfst. apply manifest_requests_NoDup.
Qed.

(** The install listener calls [skipWaiting] exactly when every manifest
    entry could be fetched and stored, and then as its last host call; its
    promise is fulfilled in either case. *)
Theorem install_skipWaiting_iff_all_stored host w s w' :
  install host w = (s, w') ->
  s = Fulfilled tt /\
  (SkipWaiting ∈ events_since w w' <->
   forall entry, entry ∈ URLS_TO_CACHE -> unfetchable host (absolute host entry) = false) /\
  (SkipWaiting ∈ events_since w w' -> last (events_since w w') = Some SkipWaiting).
Proof.
  intros Hrun. destruct (install_run host w) as (w1 & E & _ & Hcase).
  rewrite E in Hrun. injection Hrun as <- <-. split; [done|].
  destruct (fetch_all host (List.map (absolute host) URLS_TO_CACHE)) as [reason|rs] eqn:Hfetch;
    destruct Hcase as [_ Hev]; rewrite Hev.
  - assert (SkipWaiting ∉ install_prologue host
                          ++ [ConsoleError ["[Service Worker] Falló el pre-cacheo:"; reason]])
      as Hno.
    { intros [H|H]%elem_of_app; [by apply install_prologue_no_skipWaiting in H|].
      apply list_elem_of_singleton in H. discriminate. }
    split; [|done]. split; [done|]. intros Hall. exfalso.
    destruct (fetch_all_total host (List.map (absolute host) URLS_TO_CACHE)) as [rs Hrs];
      [|congruence].
    intros u (entry & <- & Hin)%list_elem_of_In%in_map_iff.
    by apply Hall, list_elem_of_In.
  - split; [|intros _; apply last_snoc]. split.
    + intros _ entry Hin.
      destruct (unfetchable host (absolute host entry)) eqn:Hbad; [|done].
      destruct (fetch_all_inl host _ _ (requests_of_manifest host entry Hin) Hbad).
      congruence.
    + intros _. apply elem_of_app. right. by apply list_elem_of_singleton.
Qed.

(** The install listener writes nowhere but at the manifest's locators in
    the current cache: every record of every other cache, and every record of
    the current cache at another locator, is as it was; the caches that
    existed are enumerated as before, the current cache coming last when it
    is new; no write is left pending. *)
Theorem install_changes_only_manifest_records host w s w' :
  install host w = (s, w') ->
  (forall name locator, name <> CACHE_NAME ->
     record name (caches w') locator = record name (caches w) locator) /\
  (forall locator, locator ∉ List.map (absolute host) URLS_TO_CACHE ->
     record CACHE_NAME (caches w') locator = record CACHE_NAME (caches w) locator) /\
  List.map fst (caches w') =
    (if store_has CACHE_NAME (caches w) then List.map fst (caches w)
     else List.map fst (caches w) ++ [CACHE_NAME]) /\
  tasks w' = tasks w.
Proof.
  intros Hrun. destruct (install_run host w) as (w1 & E & Ht & Hcase).
  rewrite E in Hrun. injection Hrun as _ <-.
  destruct (fetch_all host (List.map (absolute host) URLS_TO_CACHE)) as [reason|rs] eqn:Hfetch;
    destruct Hcase as [Hc _]; rewrite Hc.
  - split_and!; try done.
    + intros name locator _. apply record_opened.
    + intros locator _. apply record_opened.
    + apply keys_opened.
  - destruct (fetch_all_inr _ _ _ Hfetch) as [Hfst _].
    split_and!; try done.
    + intros name locator Hne. rewrite <- (record_opened CACHE_NAME name (caches w)).
      unfold record. by rewrite store_lookup_update_ne.
    + intros locator Hnot. rewrite <- (record_opened CACHE_NAME CACHE_NAME (caches w)).
      unfold record. rewrite store_lookup_update.
      destruct (store_lookup CACHE_NAME (opened CACHE_NAME (caches w))) as [c|]; [|done].
      simpl. apply put_all_lookup_other. by rewrite Hfst.
    + rewrite keys_store_update. apply keys_opened.
Qed.

(** Installing again under the same network leaves the storage as the first
    install left it. *)
Theorem install_twice_same_storage host w :
  caches (snd (install host (snd (install host w)))) = caches (snd (install host w)).
Proof.
  destruct (install_run host w) as (w1 & E1 & _ & Hcase1). rewrite E1. simpl.
  destruct (install_run host w1) as (w2 & E2 & _ & Hcase2). rewrite E2. simpl.
  destruct (fetch_all host (List.map (absolute host) URLS_TO_CACHE)) as [reason|rs] eqn:Hfetch;
    destruct Hcase1 as [Hc1 _]; destruct Hcase2 as [Hc2 _]; rewrite Hc2, Hc1.
  - apply opened_idem.
  - destruct (fetch_all_inr _ _ _ Hfetch) as [Hfst _].
    assert (opened CACHE_NAME
              (store_update CACHE_NAME (put_all rs) (opened CACHE_NAME (caches w)))
            = store_update CACHE_NAME (put_all rs) (opened CACHE_NAME (caches w))) as ->.
    { unfold opened at 1. by rewrite store_has_update, store_has_opened. }
    apply store_update_twice. intros c. apply put_all_twice.
    rewrite Hfst. apply manifest_requests_NoDup.
Qed.

(** After an install whose pre-caching succeeded, a GET for a manifest entry
    is answered from the cache with the response fetched at install, with no
    network call, whatever the network has become (in particular offline),
    provided no cache older than the current one holds the locator. *)
Theorem precached_entry_served_without_network host w s w1 entry host' :
  install host w = (s, w1) ->
  SkipWaiting ∈ events_since w w1 ->
  entry ∈ URLS_TO_CACHE ->
  match_all (stores_before CACHE_NAME (caches w)) (absolute host entry) = None ->
  exists r w2,
    on_fetch host' {| method := "GET"; url := absolute host entry |} w1
    = (RespondWith (Fulfilled (Some r)), w2) /\
    net host (absolute host entry) = NetValue (Some r) /\
    network_calls w2 = network_calls w1 /\
    caches w2 = caches w1 /\ tasks w2 = tasks w1.
Proof.
  intros Hrun Hok Hin Hbefore.
  destruct (install_run host w) as (w' & E & _ & Hcase).
  rewrite E in Hrun. injection Hrun as _ <-.
  destruct (fetch_all host (List.map (absolute host) URLS_TO_CACHE)) as [reason|rs] eqn:Hfetch.
  { destruct Hcase as [_ Hev]. rewrite Hev in Hok.
    apply elem_of_app in Hok as [H|H]; [by apply install_prologue_no_skipWaiting in H|].
    apply list_elem_of_singleton in H. discriminate. }
  destruct Hcase as [Hc _].
  destruct (fetch_all_inr _ _ _ Hfetch) as [Hfst Hall].
  pose proof (requests_of_manifest host entry Hin) as Hreq.
  pose proof (fetch_all_inr_scheme _ _ _ _ Hfetch Hreq) as Hs.
  assert (exists r, (absolute host entry, r) ∈ rs) as [r Hr].
  { rewrite <- Hfst in Hreq.
    apply list_elem_of_In, in_map_iff in Hreq as ([u r] & Hu & H). simpl in Hu. subst u.
    exists r. by apply list_elem_of_In. }
  rewrite Forall_forall in Hall. destruct (Hall _ Hr) as [Hnet _]. simpl in Hnet.
  assert (match_all (caches w') (absolute host entry) = Some r) as Hhit.
  { apply (match_all_unshadowed CACHE_NAME).
    - rewrite Hc. by apply (stored_by_put_all host).
    - by rewrite Hc, stores_before_update, stores_before_opened. }
  set (request := {| method := "GET"; url := absolute host entry |}).
  exists r, (emit [CachesMatch (url request)] w').
  rewrite (on_fetch_intercepted host' request w' eq_refl (http_scheme_startsWith _ Hs)).
  rewrite (respond_hit host' request w' r Hhit). simpl. split_and!; try done.
  rewrite (network_calls_app w' _ [CachesMatch (absolute host entry)]); [simpl; lia | done].
Qed.

(** *** The activate listener *)

Lemma filter_none_in {A} (f : A -> bool) l :
  (forall x, In x l -> f x = false) -> List.filter f l = [].
Proof.
  induction l as [|x l IH]; intros Hf; simpl; [done|].
  rewrite (Hf x (or_introl eq_refl)). apply IH. intros y Hy. apply Hf. by right.
Qed.

Lemma filter_all_in {A} (f : A -> bool) l :
  (forall x, In x l -> f x = true) -> List.filter f l = l.
Proof.
  induction l as [|x l IH]; intros Hf; simpl; [done|].
  rewrite (Hf x (or_introl eq_refl)). f_equal. apply IH. intros y Hy. apply Hf. by right.
Qed.

(** A fulfilled reclaim kept exactly the caches named as the current one. *)
Lemma activate_fulfilled_storage host w w' :
  activate host w = (Fulfilled tt, w') ->
  caches w' = List.filter (fun p => String.eqb (fst p) CACHE_NAME) (caches w).
Proof.
  intros Hrun. destruct (activate_run host w) as (s & w1 & E & Hc & _ & _ & Hr).
  rewrite E in Hrun. injection Hrun as -> <-. simpl in Hr. rewrite Hc.
  apply List.filter_ext_in. intros p Hp.
  destruct (String.eqb (fst p) CACHE_NAME) eqn:Hcur; [done|]. simpl.
  destruct (delete_fails host (fst p)) eqn:Hd; [|done].
  assert (stale_refused host (List.map fst (caches w)) = true) as Hs; [|congruence].
  apply stale_refused_true. exists (fst p). split_and!; [|by apply String.eqb_neq|done].
  by apply list_elem_of_In, in_map.
Qed.

Lemma reclaim_events_current names :
  (forall g, g ∈ names -> g = CACHE_NAME) -> reclaim_events names = [].
Proof.
  intros Hall. unfold reclaim_events.
  induction names as [|n names IH]; simpl; [done|].
  rewrite (Hall n), String.eqb_refl by (apply elem_of_cons; auto). simpl.
  apply IH. intros g Hg. apply Hall, elem_of_cons. auto.
Qed.

Lemma stale_refused_current host names :
  (forall g, g ∈ names -> g = CACHE_NAME) -> stale_refused host names = false.
Proof.
  intros Hall. apply not_true_is_false.
  intros (g & Hin & Hne & _)%stale_refused_true. by apply Hne, Hall.
Qed.

(** The activate listener only removes caches: whatever the host does, the
    records of the current cache, and of every cache whose deletion is
    refused, are as they were; no cache is enumerated that was not there
    before; no write is left pending. *)
Theorem activate_only_removes host w s w' :
  activate host w = (s, w') ->
  (forall locator,
     record CACHE_NAME (caches w') locator = record CACHE_NAME (caches w) locator) /\
  (forall name locator, delete_fails host name = true ->
     record name (caches w') locator = record name (caches w) locator) /\
  (forall name, name ∈ List.map fst (caches w') -> name ∈ List.map fst (caches w)) /\
  tasks w' = tasks w.
Proof.
  intros Hrun. destruct (activate_run host w) as (s1 & w1 & E & Hc & Ht & _ & _).
  rewrite E in Hrun. injection Hrun as _ <-. rewrite Hc. split_and!; try done.
  - intros locator. unfold record.
    rewrite (store_lookup_filter (fun n => String.eqb n CACHE_NAME || delete_fails host n)).
    by rewrite String.eqb_refl.
  - intros name locator Hd. unfold record.
    rewrite (store_lookup_filter (fun n => String.eqb n CACHE_NAME || delete_fails host n)).
    by rewrite Hd, orb_true_r.
  - intros name.
    rewrite (keys_filter (fun n => String.eqb n CACHE_NAME || delete_fails host n)).
    by intros [? _].
Qed.

(** Activating again after a fulfilled activate requests no deletion and
    leaves the storage as it is: the listener only enumerates the caches and
    claims the clients. *)
Theorem activate_again_deletes_nothing host w w1 :
  activate host w = (Fulfilled tt, w1) ->
  exists w2,
    activate host w1 = (Fulfilled tt, w2) /\
    caches w2 = caches w1 /\
    events_since w1 w2 =
      [ConsoleLog ["[Service Worker] Evento: activate"]; CachesKeys; ClientsClaim].
Proof.
  intros Hrun. pose proof (activate_fulfilled_storage _ _ _ Hrun) as Hc1.
  assert (forall g, g ∈ List.map fst (caches w1) -> g = CACHE_NAME) as Hall.
  { intros g. rewrite Hc1, (keys_filter (fun n => String.eqb n CACHE_NAME)).
    intros [_ H]. by apply String.eqb_eq. }
  destruct (activate_run host w1) as (s2 & w2 & E & Hc & _ & Hev & Hr).
  rewrite (stale_refused_current host _ Hall) in Hr, Hev.
  rewrite (reclaim_events_current _ Hall) in Hev.
  exists w2. destruct s2 as [[]|]; [|discriminate]. split_and!; try done.
  rewrite Hc. apply filter_all_in. intros p Hp.
  rewrite (Hall (fst p)), String.eqb_refl; [done|]. by apply list_elem_of_In, in_map.
Qed.

(** The activate listener does not create the current cache: when the
    storage holds no cache of that name, a fulfilled activate leaves the
    storage empty. *)
Theorem activate_without_current_cache host w w' :
  store_has CACHE_NAME (caches w) = false ->
  activate host w = (Fulfilled tt, w') ->
  caches w' = [].
Proof.
  intros Hnone Hrun. rewrite (activate_fulfilled_storage _ _ _ Hrun).
  apply filter_none_in. intros p Hp. apply String.eqb_neq. intros Hcur.
  assert (store_has CACHE_NAME (caches w) = true) as H; [|congruence].
  apply store_has_keys. rewrite <- Hcur. by apply list_elem_of_In, in_map.
Qed.

(** *** Install followed by activate *)

(** After the install listener, whatever its outcome, and a fulfilled
    activate, the enumeration of caches consists of the current cache, which
    exists, and of nothing else. *)
Theorem deploy_leaves_exactly_current host w s w1 w2 g :
  install host w = (s, w1) ->
  activate host w1 = (Fulfilled tt, w2) ->
  (g ∈ List.map fst (caches w2) <-> g = CACHE_NAME).
Proof.
  intros Hinst Hact. rewrite (activate_fulfilled_storage _ _ _ Hact).
  rewrite (keys_filter (fun n => String.eqb n CACHE_NAME)), String.eqb_eq.
  split; [by intros [_ ?]|]. intros ->. split; [|done].
  apply store_has_keys.
  destruct (install_run host w) as (w' & E & _ & Hcase).
  rewrite E in Hinst. injection Hinst as _ <-.
  destruct (fetch_all host (List.map (absolute host) URLS_TO_CACHE));
    destruct Hcase as [Hc _]; rewrite Hc, ?store_has_update; apply store_has_opened.
Qed.

(** A first install whose pre-caching fails, once activated, leaves the
    origin with an empty current cache and nothing else: the older caches
    are deleted and no locator is found in any cache. *)
Theorem failed_first_install_activated_serves_nothing host w s w1 w2 entry :
  store_has CACHE_NAME (caches w) = false ->
  entry ∈ URLS_TO_CACHE ->
  unfetchable host (absolute host entry) = true ->
  install host w = (s, w1) ->
  activate host w1 = (Fulfilled tt, w2) ->
  caches w2 = [(CACHE_NAME, ∅)] /\
  (forall locator, match_all (caches w2) locator = None).
Proof.
  intros Hnone Hin Hbad Hinst Hact.
  assert (caches w2 = [(CACHE_NAME, ∅)]) as ->; [|by split].
  rewrite (activate_fulfilled_storage _ _ _ Hact).
  destruct (install_run host w) as (w' & E & _ & Hcase).
  rewrite E in Hinst. injection Hinst as _ <-.
  destruct (fetch_all_inl host _ _ (requests_of_manifest host entry Hin) Hbad)
    as [reason Hfetch].
  rewrite Hfetch in Hcase. destruct Hcase as [Hc _].
  rewrite Hc. unfold opened. rewrite Hnone, List.filter_app. cbn [List.filter fst].
  rewrite String.eqb_refl, filter_none_in; [done|].
  intros p Hp. apply String.eqb_neq. intros Hcur.
  assert (store_has CACHE_NAME (caches w) = true) as H; [|congruence].
  apply store_has_keys. rewrite <- Hcur. by apply list_elem_of_In, in_map.
Qed.

(** *** The fetch listener *)

(** Whatever the request, the promise the fetch listener hands to
    [respondWith] is never rejected; the listener makes at most one network
    call, and never before the cache lookup; it calls [console.error] only
    when that network call has failed. *)
Theorem fetch_never_rejects_one_network_call host request w i w' :
  on_fetch host request w = (i, w') ->
  (forall reason, i <> RespondWith (Rejected reason)) /\
  (network_calls w' <= S (network_calls w))%nat /\
  (forall before locator after,
     events_since w w' = before ++ NetFetch locator :: after ->
     locator = url request /\ CachesMatch (url request) ∈ before) /\
  (forall args, ConsoleError args ∈ events_since w w' ->
     match_all (caches w) (url request) = None /\
     exists reason, net host (url request) = NetError reason /\
                    NetFetch (url request) ∈ events_since w w').
Proof.
  intros Hrun.
  set (failure reason :=
         ConsoleError ["[Service Worker] Fallo en Fetch; para:"; url request; reason]).
  assert ((forall reason, i <> RespondWith (Rejected reason)) /\
          exists es, trace w' = trace w ++ es /\
            (es = []
             \/ es = [CachesMatch (url request)]
             \/ es = [CachesMatch (url request); NetFetch (url request)]
             \/ (match_all (caches w) (url request) = None /\
                 exists reason, net host (url request) = NetError reason /\
                   es = [CachesMatch (url request); NetFetch (url request);
                         failure reason])))
    as (Hrej & es & Htr & Hshape).
  { unfold on_fetch in Hrun.
    destruct (String.eqb (method request) "GET") eqn:Hm; simpl in Hrun;
      [|injection Hrun as <- <-; split; [done|]; exists []; by rewrite app_nil_r; auto].
    destruct (String.prefix "http" (url request)) eqn:Hp; simpl in Hrun;
      [|injection Hrun as <- <-; split; [done|]; exists []; by rewrite app_nil_r; auto].
    destruct (match_all (caches w) (url request)) as [r|] eqn:Hmatch.
    - rewrite (respond_hit host _ _ r Hmatch) in Hrun. injection Hrun as <- <-.
      split; [done|]. eexists. split; [reflexivity|]. auto.
    - destruct (net host (url request)) as [reason|v] eqn:Hnet.
      + destruct (respond_miss_failed host _ _ _ Hmatch Hnet) as (w1 & E & _ & _ & Htr).
        rewrite E in Hrun. injection Hrun as <- <-. split; [done|].
        eexists. split; [exact Htr|]. do 3 right. eauto.
      + assert (exists w1, respond host request w = (Fulfilled v, w1) /\
                  trace w1 = trace w ++ [CachesMatch (url request); NetFetch (url request)])
          as (w1 & E & Htr).
        { destruct (not_cacheable v) eqn:Hv.
          - destruct (respond_miss_uncached host _ _ _ Hmatch Hnet Hv)
              as (w1 & E & _ & _ & Htr). eauto.
          - destruct (proj1 (not_cacheable_false v) Hv) as (r & -> & _).
            destruct (respond_miss_cached host _ _ _ Hmatch Hnet Hv)
              as (w1 & E & _ & _ & Htr). eauto. }
        rewrite E in Hrun. injection Hrun as <- <-. split; [done|].
        eexists. split; [exact Htr|]. auto. }
  split; [done|].
  rewrite (events_since_app _ _ _ Htr), (network_calls_app _ _ _ Htr).
  destruct Hshape as [->|[->|[->|(Hmiss & reason & Hnet & ->)]]]; simpl.
  - split_and!; [lia| |].
    + intros before locator after H. by destruct before.
    + by intros args ?%elem_of_nil.
  - split_and!; [lia| |].
    + intros [|e [|e' before]] locator after H; by simplify_eq/=.
    + intros args H%list_elem_of_singleton. discriminate.
  - split_and!; [lia| |].
    + intros [|e [|e' [|e'' before]]] locator after H; simplify_eq/=.
      split; [done | by apply list_elem_of_singleton].
    + intros args H. apply list_elem_of_In in H. simpl in H.
      by destruct H as [|[|[]]].
  - split_and!; [lia| |].
    + intros [|e [|e' [|e'' [|e3 before]]]] locator after H; simplify_eq/=.
      split; [done | by apply list_elem_of_singleton].
    + intros args _. split; [done|]. exists reason. split; [done|].
      apply elem_of_cons. right. apply elem_of_cons. by left.
Qed.

(** When no cache holds the locator the worker is transparent: whether or
    not the listener takes the request, the page receives what the same
    request made directly to the network would have given it. *)
Theorem worker_transparent_on_miss host request w :
  match_all (caches w) (url request) = None ->
  page_result host request (fst (on_fetch host request w)) = direct_request host request.
Proof.
  intros Hmiss. unfold on_fetch.
  destruct (String.eqb (method request) "GET") eqn:Hm; simpl; [|done].
  destruct (String.prefix "http" (url request)) eqn:Hp; simpl; [|done].
  unfold direct_request.
  destruct (net host (url request)) as [reason|v] eqn:Hnet.
  - destruct (respond_miss_failed host _ _ _ Hmiss Hnet) as (w1 & -> & _). done.
  - destruct (not_cacheable v) eqn:Hv.
    + destruct (respond_miss_uncached host _ _ _ Hmiss Hnet Hv) as (w1 & -> & _).
      by destruct v.
    + destruct (proj1 (not_cacheable_false v) Hv) as (r & -> & _).
      destruct (respond_miss_cached host _ _ _ Hmiss Hnet Hv) as (w1 & -> & _). done.
Qed.

(** Completing a write the listener left behind changes no record other
    than the one of its locator in the current cache. *)
Theorem pending_write_touches_one_record t w name locator :
  name <> CACHE_NAME \/ locator <> task_locator t ->
  record name (caches (snd (run_task t w))) locator = record name (caches w) locator.
Proof.
  intros Hother. rewrite run_task_caches. unfold store_put.
  destruct (http_scheme (task_locator t)); [|apply record_opened].
  rewrite <- (record_opened CACHE_NAME name (caches w)). unfold record.
  destruct (decide (name = CACHE_NAME)) as [->|Hne].
  - destruct Hother as [?|Hloc]; [done|]. rewrite store_lookup_update.
    destruct (store_lookup CACHE_NAME (opened CACHE_NAME (caches w))); [|done].
    simpl. by apply lookup_insert_ne.
  - by rewrite store_lookup_update_ne.
Qed.

(** A response cached by a first visit is served on a later visit whatever
    the network has become (in particular offline), once the write the first
    visit left behind has completed: the later call makes no network call
    and answers with the response the first visit received. *)
Theorem cached_on_first_visit_served_offline host host' request w r :
  method request = "GET" ->
  http_scheme (url request) = true ->
  match_all (caches w) (url request) = None ->
  net host (url request) = NetValue (Some r) ->
  status r = 200 ->
  type r = basic \/ type r = cors ->
  exists w2,
    on_fetch host' request (run_pending (snd (on_fetch host request w)))
    = (RespondWith (Fulfilled (Some r)), w2) /\
    events_since (run_pending (snd (on_fetch host request w))) w2
    = [CachesMatch (url request)] /\
    page_result host' request
      (fst (on_fetch host' request (run_pending (snd (on_fetch host request w)))))
    = Delivered r.
Proof.
  intros Hm Hs Hmiss Hnet Hst Hty.
  pose proof (http_scheme_startsWith _ Hs) as Hp.
  assert (not_cacheable (Some r) = false) as Hv.
  { apply not_cacheable_false. eauto. }
  destruct (respond_miss_cached host _ _ _ Hmiss Hnet Hv) as (w1 & E1 & Hc & Ht & _).
  rewrite (on_fetch_intercepted host _ _ Hm Hp), E1. simpl.
  assert (match_all (caches (run_pending w1)) (url request) = Some r) as Hhit.
  { apply (match_all_unshadowed CACHE_NAME).
    - rewrite (run_pending_snoc w w1 _ Hc Ht). by apply record_store_put.
    - rewrite run_pending_stores_before, Hc. by apply match_all_stores_before. }
  exists (emit [CachesMatch (url request)] (run_pending w1)).
  rewrite (on_fetch_intercepted host' _ _ Hm Hp), (respond_hit host' _ _ r Hhit).
  simpl. split_and!; try done. by apply events_since_app.
Qed.

(** *** Sample runs *)

Lemma install_skipWaiting_iff_all_stored_online :
  SkipWaiting ∈ events_since fresh (snd (install host_online fresh)) <->
  forall entry, entry ∈ URLS_TO_CACHE ->
    unfetchable host_online (absolute host_online entry) = false.
Proof.
  exact (proj1 (proj2 (install_skipWaiting_iff_all_stored host_online fresh
                         (fst (install host_online fresh))
                         (snd (install host_online fresh)) eq_refl))).
Defined.

Lemma install_changes_only_manifest_records_older :
  record "bananapass-cache-v0" (caches (snd (install host_online older_only)))
    "https://bananapass.test/logo.png"
  = record "bananapass-cache-v0" (caches older_only) "https://bananapass.test/logo.png".
Proof.
  apply (proj1 (install_changes_only_manifest_records host_online older_only
                  (fst (install host_online older_only))
                  (snd (install host_online older_only)) eq_refl)).
  discriminate.
Defined.

Lemma precached_entry_served_without_network_logo :
  exists r w2,
    on_fetch host_offline
      {| method := "GET"; url := absolute host_online "/logo.png" |}
      (snd (install host_online fresh))
    = (RespondWith (Fulfilled (Some r)), w2) /\
    net host_online (absolute host_online "/logo.png") = NetValue (Some r) /\
    network_calls w2 = network_calls (snd (install host_online fresh)) /\
    caches w2 = caches (snd (install host_online fresh)) /\
    tasks w2 = tasks (snd (install host_online fresh)).
Proof.
  apply (precached_entry_served_without_network host_online fresh
           (fst (install host_online fresh)) (snd (install host_online fresh))
           "/logo.png" host_offline).
  - reflexivity.
  - by_evaluation.
  - by_evaluation.
  - reflexivity.
Defined.

Lemma activate_only_removes_refused :
  record CACHE_NAME (caches (snd (activate host_delete_refused stale_first)))
    "https://bananapass.test/logo.png"
  = record CACHE_NAME (caches stale_first) "https://bananapass.test/logo.png".
Proof.
  exact (proj1 (activate_only_removes host_delete_refused stale_first
                  (fst (activate host_delete_refused stale_first))
                  (snd (activate host_delete_refused stale_first)) eq_refl)
           "https://bananapass.test/logo.png").
Defined.

Lemma activate_again_deletes_nothing_three :
  exists w2,
    activate host_online (snd (activate host_online three_generations)) = (Fulfilled tt, w2) /\
    caches w2 = caches (snd (activate host_online three_generations)) /\
    events_since (snd (activate host_online three_generations)) w2 =
      [ConsoleLog ["[Service Worker] Evento: activate"]; CachesKeys; ClientsClaim].
Proof.
  apply (activate_again_deletes_nothing host_online three_generations). reflexivity.
Defined.

Lemma activate_without_current_cache_older :
  caches (snd (activate host_online older_only)) = [].
Proof.
  apply (activate_without_current_cache host_online older_only); reflexivity.
Defined.

Lemma deploy_leaves_exactly_current_older :
  "bananapass-cache-v0"
    ∈ List.map fst (caches (snd (activate host_online (snd (install host_online older_only)))))
  <-> "bananapass-cache-v0" = CACHE_NAME.
Proof.
  apply (deploy_leaves_exactly_current host_online older_only
           (fst (install host_online older_only)) (snd (install host_online older_only))
           (snd (activate host_online (snd (install host_online older_only)))));
    reflexivity.
Defined.

Lemma failed_first_install_activated_serves_nothing_logo :
  caches (snd (activate host_logo_unreachable
                 (snd (install host_logo_unreachable older_only))))
  = [(CACHE_NAME, ∅)] /\
  (forall locator,
     match_all (caches (snd (activate host_logo_unreachable
                               (snd (install host_logo_unreachable older_only)))))
       locator = None).
Proof.
  apply (failed_first_install_activated_serves_nothing host_logo_unreachable older_only
           (fst (install host_logo_unreachable older_only))
           (snd (install host_logo_unreachable older_only))
           (snd (activate host_logo_unreachable
                   (snd (install host_logo_unreachable older_only))))
           "/logo.png").
  - reflexivity.
  - by_evaluation.
  - reflexivity.
  - reflexivity.
  - reflexivity.
Defined.

Lemma fetch_never_rejects_one_network_call_offline :
  (network_calls (snd (on_fetch host_offline get_logo fresh)) <= S (network_calls fresh))%nat.
Proof.
  exact (proj1 (proj2 (fetch_never_rejects_one_network_call host_offline get_logo fresh
                         (fst (on_fetch host_offline get_logo fresh))
                         (snd (on_fetch host_offline get_logo fresh)) eq_refl))).
Defined.

Lemma worker_transparent_on_miss_not_found :
  page_result host_not_found get_logo (fst (on_fetch host_not_found get_logo fresh))
  = direct_request host_not_found get_logo.
Proof.
  apply (worker_transparent_on_miss host_not_found get_logo fresh). reflexivity.
Defined.

Lemma pending_write_touches_one_record_older :
  record "bananapass-cache-v0"
    (caches (snd (run_task {| task_locator := "https://bananapass.test/logo.png";
                              task_response := logo_v1 |} older_only)))
    "https://bananapass.test/logo.png"
  = record "bananapass-cache-v0" (caches older_only) "https://bananapass.test/logo.png".
Proof.
  apply (pending_write_touches_one_record
           {| task_locator := "https://bananapass.test/logo.png"; task_response := logo_v1 |}
           older_only "bananapass-cache-v0" "https://bananapass.test/logo.png").
  left. discriminate.
Defined.

Lemma cached_on_first_visit_served_offline_logo :
  exists w2,
    on_fetch host_offline get_logo (run_pending (snd (on_fetch host_online get_logo fresh)))
    = (RespondWith (Fulfilled (Some (page (url get_logo)))), w2) /\
    events_since (run_pending (snd (on_fetch host_online get_logo fresh))) w2
    = [CachesMatch (url get_logo)] /\
    page_result host_offline get_logo
      (fst (on_fetch host_offline get_logo
              (run_pending (snd (on_fetch host_online get_logo fresh)))))
    = Delivered (page (url get_logo)).
Proof.
  apply (cached_on_first_visit_served_offline host_online host_offline get_logo fresh
           (page (url get_logo))); try reflexivity.
  left. reflexivity.
Defined.
